(** * QR label generator: a shallow embedding of [generate_x24_qr_with-title.py]

    The script draws random five-character codes over [A-Z0-9], renders each
    as a QR image with the code printed below it, and saves one file per
    code.  The embedding keeps the script's structure:

    - the outside world (random source, font loader, QR encoder, text
      measuring, file system refusals) is an [Env] record of oracles;
    - the mutable world (random cursor, file system, standard output, the
      logging stream, and a trace of the calls made) is a [World] record
      threaded through a state-and-exception monad [M];
    - the [while] loop runs on fuel; running out of fuel is [None].

    Python characters are modelled as [ascii], read as the code points
    0..255; integers that Python keeps unbounded are [Z] or [nat]. *)

From Stdlib Require Import ZArith Ascii String Lia.
From stdpp Require Import base decidable option list gmap sets strings pretty.

Set Warnings "-clear-no-such-hyp".

Open Scope string_scope.
Open Scope list_scope.

(** ** Configuration constants (lines 8-23 of the script) *)

Definition NUM_CODES : nat := 24.
Definition STRING_LENGTH : nat := 5.
Definition OUTPUT_DIR : string := "qr_codes_with_titles".
Definition IMAGE_FORMAT : string := "PNG".
Definition QR_BOX_SIZE : Z := 10.
Definition QR_BORDER : Z := 4.
Definition PADDING : Z := 20.
Definition TEXT_PADDING_TOP : Z := 10.
Definition FONT_SIZE : Z := 25.
Definition BACKGROUND_COLOR : string := "white".
Definition TEXT_COLOR : string := "black".

(** ** Exceptions

    Only instances of Python's [Exception] are modelled; the class decides
    which [except] clause takes them, the message is what [str(e)] prints. *)

Inductive exn_class : Type :=
  | IOError
  | AttributeError
  | ValueError
  | IndexError
  | OverflowError
  | OtherException.

Record exn : Type := MkExn { exn_cls : exn_class; exn_msg : string }.

Definition is_IOError (e : exn) : bool :=
  match exn_cls e with IOError => true | _ => false end.

Definition is_AttributeError (e : exn) : bool :=
  match exn_cls e with AttributeError => true | _ => false end.

Inductive Res (A : Type) : Type :=
  | Ok (a : A)
  | Raise (e : exn).
Arguments Ok {A} a.
Arguments Raise {A} e.

(** ** Images, fonts, the file system *)

(** A box is (x, y, width, height). *)
Record Image : Type := MkImage {
  img_width : Z;
  img_height : Z;
  img_qr_box : Z * Z * Z * Z;
  img_text_box : Z * Z * Z * Z;
  img_text : string
}.

(** A loaded font is known by how it measures a string: [textbbox] gives
    (left, top, right, bottom); [textsize] is the older (width, height). *)
Record Font : Type := MkFont {
  font_textbbox : string -> Res (Z * Z * Z * Z);
  font_textsize : string -> Res (Z * Z)
}.

Inductive Node : Type :=
  | Dir
  | File (img : Image).

(** The calls the script makes, in the order it makes them: directory
    creation, one random draw, entry into [create_qr_with_title], and a
    successful save. *)
Inductive Event : Type :=
  | EvMakedirs (path : string)
  | EvChoice (c : ascii)
  | EvCompose (data_string filename : string)
  | EvSave (filename : string) (img : Image).

Record World : Type := MkWorld {
  rng_pos : nat;
  fs : gmap string Node;
  stdout : list string;
  errlog : list string;
  trace : list Event
}.

(** The outside world of one run: the k-th random draw, the two font
    loaders, the QR encoder (box size, border, data) with the size of the
    image it renders, the files that cannot be opened for writing, the
    directories that cannot be created, and the canvas sizes the allocator
    cannot provide. *)
Record Env : Type := MkEnv {
  rnd : nat -> nat;
  truetype : string -> Z -> Res Font;
  load_default : Res Font;
  qr_render : Z -> Z -> string -> Res (Z * Z);
  save_error : string -> option exn;
  mkdir_error : string -> option exn;
  alloc_error : Z -> Z -> option exn
}.

(** ** The state-and-exception monad *)

Definition M (A : Type) : Type := World -> Res A * World.

Definition ret {A} (a : A) : M A := fun w => (Ok a, w).

Definition bind {A B} (m : M A) (k : A -> M B) : M B :=
  fun w => match m w with
           | (Ok a, w') => k a w'
           | (Raise e, w') => (Raise e, w')
           end.

Definition raise {A} (e : exn) : M A := fun w => (Raise e, w).

Definition lift {A} (r : Res A) : M A := fun w => (r, w).

(** [try: m except <class> as e: h e]; an exception outside the class
    passes through. *)
Definition try_except {A} (m : M A) (catches : exn -> bool) (h : exn -> M A) : M A :=
  fun w => match m w with
           | (Ok a, w') => (Ok a, w')
           | (Raise e, w') => if catches e then h e w' else (Raise e, w')
           end.

#[global] Instance M_ret : MRet M := @ret.
#[global] Instance M_bind : MBind M := fun A B k m => bind m k.

Definition print (s : string) : M unit :=
  fun w => (Ok tt, MkWorld (rng_pos w) (fs w) (stdout w ++ [s]) (errlog w) (trace w)).

Definition logging_error (s : string) : M unit :=
  fun w => (Ok tt, MkWorld (rng_pos w) (fs w) (stdout w) (errlog w ++ [s]) (trace w)).

Definition emit (ev : Event) : M unit :=
  fun w => (Ok tt, MkWorld (rng_pos w) (fs w) (stdout w) (errlog w) (trace w ++ [ev])).

(** ** String helpers of the Python runtime *)

Definition code_of (c : ascii) : nat := nat_of_ascii c.

Definition between (lo hi n : nat) : bool := (lo <=? n)%nat && (n <=? hi)%nat.

(** [str.isalnum] on the code points 0..255. *)
Definition isalnum (c : ascii) : bool :=
  let n := code_of c in
  between 48 57 n || between 65 90 n || between 97 122 n
  || (n =? 170)%nat || (n =? 178)%nat || (n =? 179)%nat || (n =? 181)%nat
  || (n =? 185)%nat || (n =? 186)%nat || between 188 190 n
  || between 192 214 n || between 216 246 n || between 248 255 n.

(** [str.lower] on the code points 0..255. *)
Definition lower_char (c : ascii) : ascii :=
  let n := code_of c in
  if between 65 90 n || between 192 214 n || between 216 222 n
  then ascii_of_nat (n + 32) else c.

Fixpoint str_map (f : ascii -> ascii) (s : string) : string :=
  match s with
  | EmptyString => EmptyString
  | String c r => String (f c) (str_map f r)
  end.

Definition lower (s : string) : string := str_map lower_char s.

Fixpoint str_chars (s : string) : list ascii :=
  match s with
  | EmptyString => []
  | String c r => c :: str_chars r
  end.

Definition startswith (s p : string) : bool := String.prefix p s.

Fixpoint endswith_slash (s : string) : bool :=
  match s with
  | EmptyString => false
  | String c EmptyString => Ascii.eqb c "/"
  | String _ r => endswith_slash r
  end.

(** [os.path.join] with two arguments (the POSIX rule). *)
Definition os_path_join (a b : string) : string :=
  if startswith b "/" then b
  else if String.eqb a "" || endswith_slash a then a +:+ b
  else a +:+ "/" +:+ b.

(** [string.ascii_uppercase + string.digits] *)
Definition characters : string := "ABCDEFGHIJKLMNOPQRSTUVWXYZ0123456789".

(** ** Random code generation (lines 42-45) *)

(** [random.choice(seq)]: one draw, reduced to an index of [seq]; an empty
    [seq] raises [IndexError]. *)
Definition random_choice (env : Env) (seq : list ascii) : M ascii :=
  fun w =>
    match seq !! (rnd env (rng_pos w) mod List.length seq)%nat with
    | Some c =>
        (Ok c, MkWorld (S (rng_pos w)) (fs w) (stdout w) (errlog w)
                       (trace w ++ [EvChoice c]))
    | None => (Raise (MkExn IndexError "Cannot choose from an empty sequence"), w)
    end.

(** [''.join(random.choice(cs) for _ in range(n))] *)
Fixpoint join_choices (env : Env) (cs : list ascii) (n : nat) : M string :=
  match n with
  | O => ret ""
  | S k =>
      c ← random_choice env cs;
      s ← join_choices env cs k;
      ret (String c s)
  end.

Definition generate_random_string (env : Env) (length : nat) : M string :=
  join_choices env (str_chars characters) length.

(** ** The image composer (lines 47-100) *)

(** What [Image.new('RGB', (w, h))] refuses: a negative side, a side that
    does not fit a C int, and any size the allocator of the environment
    cannot provide. *)
Definition new_refusal (env : Env) (w h : Z) : option exn :=
  if ((w <? 0) || (h <? 0))%Z
  then Some (MkExn ValueError "Width and height must be >= 0")
  else if ((2 ^ 31 <=? w) || (2 ^ 31 <=? h))%Z
  then Some (MkExn OverflowError "signed integer is greater than maximum")
  else alloc_error env w h.

(** [Image.new('RGB', (w, h), color)] *)
Definition image_new (env : Env) (w h : Z) : M (Z * Z) :=
  match new_refusal env w h with
  | Some e => raise e
  | None => ret (w, h)
  end.

(** What [final_img.save] refuses: a file that cannot be opened for
    writing, and an image with a side of zero. *)
Definition save_refusal (env : Env) (img : Image) (filename : string) : option exn :=
  match save_error env filename with
  | Some e => Some e
  | None =>
      if ((img_width img =? 0) || (img_height img =? 0))%Z
      then Some (MkExn ValueError "cannot write empty image as PNG")
      else None
  end.

(** [final_img.save(filename, IMAGE_FORMAT)]; a refused save leaves no
    file of its own behind. *)
Definition image_save (env : Env) (img : Image) (filename : string) : M unit :=
  fun w =>
    match save_refusal env img filename with
    | Some e => (Raise e, w)
    | None =>
        (Ok tt, MkWorld (rng_pos w) (<[filename := File img]> (fs w)) (stdout w)
                        (errlog w) (trace w ++ [EvSave filename img]))
    end.

(** Lines 64-73: the text size, by [textbbox] or, on an older Pillow, by
    [textsize]. *)
Definition measure_text (FONT : Font) (data_string : string) : M (Z * Z) :=
  try_except
    (text_bbox ← lift (font_textbbox FONT data_string);
     let '(x0, y0, x1, y1) := text_bbox in
     ret (x1 - x0, y1 - y0)%Z)
    is_AttributeError
    (fun _ =>
       print "Using older textsize method (might be less accurate)";;
       lift (font_textsize FONT data_string)).

(** Lines 76-92: canvas size and the two paste origins. *)
Definition layout (data_string : string) (qr_width qr_height text_width text_height : Z)
  : Image :=
  let total_width := (Z.max qr_width text_width + 2 * PADDING)%Z in
  let total_height := (qr_height + TEXT_PADDING_TOP + text_height + 2 * PADDING)%Z in
  let qr_x := ((total_width - qr_width) / 2)%Z in
  let qr_y := PADDING in
  let text_x := ((total_width - text_width) / 2)%Z in
  let text_y := (qr_y + qr_height + TEXT_PADDING_TOP)%Z in
  MkImage total_width total_height
          (qr_x, qr_y, qr_width, qr_height)
          (text_x, text_y, text_width, text_height)
          data_string.

(** The [try] block of [create_qr_with_title]. *)
Definition compose_and_save (env : Env) (FONT : Font) (data_string filename : string)
  : M unit :=
  qr_size ← lift (qr_render env QR_BOX_SIZE QR_BORDER data_string);
  let '(qr_width, qr_height) := qr_size in
  _ ← image_new env 1 1;
  text_size ← measure_text FONT data_string;
  let '(text_width, text_height) := text_size in
  let final_img := layout data_string qr_width qr_height text_width text_height in
  _ ← image_new env (img_width final_img) (img_height final_img);
  image_save env final_img filename;;
  print ("Successfully created: " +:+ filename).

Definition create_qr_with_title (env : Env) (FONT : Font) (data_string filename : string)
  : M unit :=
  emit (EvCompose data_string filename);;
  try_except
    (compose_and_save env FONT data_string filename)
    (fun _ => true)
    (fun e =>
       logging_error ("Failed to create QR code for '" +:+ data_string +:+ "': " +:+ exn_msg e);;
       print ("Error processing '" +:+ data_string +:+ "': " +:+ exn_msg e)).

(** ** Font selection at import time (lines 26-39) *)

(** [exit()] raises [SystemExit(None)]; the interpreter turns a missing
    code into status 0. *)
Inductive Startup : Type :=
  | FontReady (FONT : Font)
  | SystemExit (code : option Z).

Definition load_font (env : Env) : M Startup :=
  try_except
    (f ← lift (truetype env "arial.ttf" FONT_SIZE);
     ret (FontReady f))
    is_IOError
    (fun _ =>
       print "Warning: Default font 'arial.ttf' not found. Using Pillow's default font.";;
       try_except
         (f ← lift (load_default env);
          ret (FontReady f))
         (fun _ => true)
         (fun e =>
            logging_error ("Could not load even the default PIL font: " +:+ exn_msg e);;
            print "Error: Could not load any font. Please install a font or check Pillow installation.";;
            ret (SystemExit None))).

(** ** Main execution (lines 104-125) *)

(** [os.makedirs(path, exist_ok=True)] for a single-component path. *)
Definition os_makedirs (env : Env) (path : string) : M unit :=
  fun w =>
    let w1 := MkWorld (rng_pos w) (fs w) (stdout w) (errlog w)
                      (trace w ++ [EvMakedirs path]) in
    match fs w !! path with
    | Some Dir => (Ok tt, w1)
    | Some (File _) => (Raise (MkExn IOError ("File exists: '" +:+ path +:+ "'")), w1)
    | None =>
        match mkdir_error env path with
        | Some e => (Raise e, w1)
        | None =>
            (Ok tt, MkWorld (rng_pos w) (<[path := Dir]> (fs w)) (stdout w) (errlog w)
                            (trace w ++ [EvMakedirs path]))
        end
    end.

Definition safe_filename (random_str : string) : string :=
  str_map (fun c => if isalnum c then c else "_"%char) random_str.

Definition output_path (random_str : string) : string :=
  os_path_join OUTPUT_DIR (safe_filename random_str +:+ "." +:+ lower IMAGE_FORMAT).

(** One pass through the body of the [while]; the boolean is [break]. *)
Definition loop_body (env : Env) (FONT : Font) (num_codes : nat)
    (generated_strings : gset string) : M (gset string * bool) :=
  random_str ← generate_random_string env STRING_LENGTH;
  generated_strings' ←
    (if decide (random_str ∈ generated_strings) then ret generated_strings
     else
       create_qr_with_title env FONT random_str (output_path random_str);;
       ret ({[random_str]} ∪ generated_strings));
  if ((num_codes * 2 <? size generated_strings')%nat
      && (size generated_strings' <? num_codes)%nat)
  then
    print "Warning: Difficulty generating unique strings. Stopping.";;
    ret (generated_strings', true)
  else ret (generated_strings', false).

Fixpoint main_loop (env : Env) (FONT : Font) (num_codes : nat) (fuel : nat)
    (generated_strings : gset string) (w : World)
  : option (Res (gset string) * World) :=
  match fuel with
  | O => None
  | S fuel' =>
      if (size generated_strings <? num_codes)%nat then
        match loop_body env FONT num_codes generated_strings w with
        | (Raise e, w') => Some (Raise e, w')
        | (Ok (gs, true), w') => Some (Ok gs, w')
        | (Ok (gs, false), w') => main_loop env FONT num_codes fuel' gs w'
        end
      else Some (Ok generated_strings, w)
  end.

Definition newline : string := String (ascii_of_nat 10) "".

Definition main (env : Env) (FONT : Font) (num_codes : nat) (fuel : nat) (w : World)
  : option (Res unit * World) :=
  match (os_makedirs env OUTPUT_DIR;;
         print ("Generating " +:+ pretty num_codes +:+ " QR codes in directory '"
                +:+ OUTPUT_DIR +:+ "'...")) w with
  | (Raise e, w1) => Some (Raise e, w1)
  | (Ok _, w1) =>
      match main_loop env FONT num_codes fuel ∅ w1 with
      | None => None
      | Some (Raise e, w2) => Some (Raise e, w2)
      | Some (Ok generated_strings, w2) =>
          Some (print (newline +:+ "Finished generating "
                       +:+ pretty (size generated_strings) +:+ " QR codes.") w2)
      end
  end.

(** The whole script; the result is the process exit status and the final
    world.  An uncaught exception ends the interpreter with status 1. *)
Definition script (env : Env) (num_codes : nat) (fuel : nat) (w : World)
  : option (Z * World) :=
  match load_font env w with
  | (Raise _, w1) => Some (1%Z, w1)
  | (Ok (SystemExit code), w1) => Some (default 0%Z code, w1)
  | (Ok (FontReady FONT), w1) =>
      match main env FONT num_codes fuel w1 with
      | None => None
      | Some (Raise _, w2) => Some (1%Z, w2)
      | Some (Ok _, w2) => Some (0%Z, w2)
      end
  end.


(** The same environment over another random source. *)
Definition with_rnd (r : nat -> nat) (env : Env) : Env :=
  MkEnv r (truetype env) (load_default env) (qr_render env) (save_error env)
        (mkdir_error env) (alloc_error env).

(** No font can be loaded: the preferred font raises IOError and the
    built-in fallback raises as well. *)
Definition fonts_unavailable (env : Env) : Prop :=
  exists e e',
    truetype env "arial.ttf" FONT_SIZE = Raise e /\ is_IOError e = true /\
    load_default env = Raise e'.

(** ** Concrete environments used to run the model *)

(** A font that measures every string as an 80 x 20 box set 5 below the
    origin. *)
Definition arial : Font :=
  MkFont (fun _ => Ok (0, 5, 80, 25)%Z) (fun _ => Ok (80, 20)%Z).

(** Draw k selects index k; fonts load; the encoder renders a version-1
    symbol (21 modules plus the border on each side); nothing is refused. *)
Definition demo_env : Env :=
  MkEnv (fun k => k)
        (fun _ _ => Ok arial)
        (Ok arial)
        (fun box border _ => Ok ((21 + 2 * border) * box, (21 + 2 * border) * box)%Z)
        (fun _ => None)
        (fun _ => None)
        (fun _ _ => None).

(** As [demo_env], but every save is refused. *)
Definition unwritable_env : Env :=
  MkEnv (rnd demo_env) (truetype demo_env) (load_default demo_env) (qr_render demo_env)
        (fun _ => Some (MkExn IOError "Permission denied"))
        (mkdir_error demo_env) (alloc_error demo_env).

(** As [demo_env], but neither font can be loaded. *)
Definition no_font_env : Env :=
  MkEnv (rnd demo_env)
        (fun _ _ => Raise (MkExn IOError "cannot open resource"))
        (Raise (MkExn OtherException "no default font"))
        (qr_render demo_env) (save_error demo_env) (mkdir_error demo_env)
        (alloc_error demo_env).

(** The world a finished run leaves, or [w] when the run has not finished. *)
Definition final_world {A} (r : option (A * World)) (w : World) : World :=
  match r with Some (_, w') => w' | None => w end.

(** A fresh process over a given file system. *)
Definition boot (fs0 : gmap string Node) : World := MkWorld 0 fs0 [] [] [].

(** ** Reading the trace *)

Definition composed (tr : list Event) : list (string * string) :=
  omap (fun ev => match ev with EvCompose d f => Some (d, f) | _ => None end) tr.

Definition saved (tr : list Event) : list (string * Image) :=
  omap (fun ev => match ev with EvSave f img => Some (f, img) | _ => None end) tr.

Definition made_dirs (tr : list Event) : list string :=
  omap (fun ev => match ev with EvMakedirs p => Some p | _ => None end) tr.

(** ** The random source read as a pure function *)

(** The character the draw at cursor [pos] selects. *)
Definition pick (env : Env) (pos : nat) : ascii :=
  default "A"%char
    (str_chars characters !! (rnd env pos mod List.length (str_chars characters))%nat).

(** The string [generate_random_string] returns when the cursor is [pos]. *)
Fixpoint sample (env : Env) (pos n : nat) : string :=
  match n with
  | O => ""
  | S k => String (pick env pos) (sample env (S pos) k)
  end.

(** The world after [n] draws. *)
Definition drawn (env : Env) (n : nat) (w : World) : World :=
  MkWorld (rng_pos w + n) (fs w) (stdout w) (errlog w)
          (trace w ++ map EvChoice (str_chars (sample env (rng_pos w) n))).

(** The next [k] strings the loop will sample from cursor [pos]. *)
Fixpoint samples (env : Env) (pos k : nat) : list string :=
  match k with
  | O => []
  | S k' => sample env pos STRING_LENGTH :: samples env (pos + STRING_LENGTH) k'
  end.

(** A well-formed code: [STRING_LENGTH] characters, all of the alphabet. *)
Definition valid_code (s : string) : Prop :=
  String.length s = STRING_LENGTH /\
  forall c, c ∈ str_chars s -> c ∈ str_chars characters.

(** Every string of [n] characters over the alphabet. *)
Fixpoint all_codes (n : nat) : list string :=
  match n with
  | O => [""]
  | S k => flat_map (fun c => map (String c) (all_codes k)) (str_chars characters)
  end.

(** The world the composer leaves behind. *)
Definition composer_world (env : Env) (FONT : Font) (d f : string) (w : World) : World :=
  (create_qr_with_title env FONT d f w).2.

Definition summary_line (n : nat) : string :=
  newline +:+ "Finished generating " +:+ pretty n +:+ " QR codes.".

(** [os.makedirs] goes through: the path is not a plain file, and when it
    is absent the system lets it be created. *)
Definition makedirs_ok (env : Env) (w : World) : Prop :=
  match fs w !! OUTPUT_DIR with
  | Some Dir => True
  | Some (File _) => False
  | None => mkdir_error env OUTPUT_DIR = None
  end.

(** ** The composer, read as a pure function of the oracles *)

(** What [measure_text] returns, whatever it prints on the way. *)
Definition measured (FONT : Font) (d : string) : Res (Z * Z) :=
  match font_textbbox FONT d with
  | Ok (x0, y0, x1, y1) => Ok (x1 - x0, y1 - y0)%Z
  | Raise e => if is_AttributeError e then font_textsize FONT d else Raise e
  end.

(** The image the composer saves under [f], or the exception that stops it. *)
Definition rendering (env : Env) (FONT : Font) (d f : string) : Res Image :=
  match qr_render env QR_BOX_SIZE QR_BORDER d with
  | Raise e => Raise e
  | Ok (qw, qh) =>
      match new_refusal env 1 1 with
      | Some e => Raise e
      | None =>
          match measured FONT d with
          | Raise e => Raise e
          | Ok (tw, th) =>
              let img := layout d qw qh tw th in
              match new_refusal env (img_width img) (img_height img) with
              | Some e => Raise e
              | None =>
                  match save_refusal env img f with
                  | Some e => Raise e
                  | None => Ok img
                  end
              end
          end
      end
  end.

Definition failure_log (d : string) (e : exn) : string :=
  "Failed to create QR code for '" +:+ d +:+ "': " +:+ exn_msg e.

Definition failure_line (d : string) (e : exn) : string :=
  "Error processing '" +:+ d +:+ "': " +:+ exn_msg e.

Ltac unfold_monad :=
  unfold mbind, M_bind, mret, M_ret, bind, ret, raise, lift, try_except,
         print, logging_error, emit in *.

(** ** The loop invariant

    Relative to the world [w0] in which the loop starts with an empty set:
    [tr] and [log] are what the loop has added to the trace and to the
    logging stream so far. *)

Definition loop_inv (env : Env) (FONT : Font) (num_codes : nat) (w0 : World)
    (gs : gset string) (w : World) : Prop :=
  (size gs <= num_codes)%nat /\
  (forall s, s ∈ gs -> valid_code s) /\
  exists tr log,
    trace w = trace w0 ++ tr /\
    errlog w = errlog w0 ++ log /\
    NoDup (composed tr).*1 /\
    list_to_set (composed tr).*1 = gs /\
    (forall d f, (d, f) ∈ composed tr -> f = output_path d) /\
    (forall f img, (f, img) ∈ saved tr ->
       exists d, d ∈ gs /\ f = output_path d /\ rendering env FONT d f = Ok img) /\
    (forall f img, (f, img) ∈ saved tr -> fs w !! f = Some (File img)) /\
    (length (saved tr) + length log = length (composed tr))%nat /\
    made_dirs tr = [].

Ltac by_evaluation := vm_compute; reflexivity.

(** ** Further environments and conditions *)

(** A font of an older Pillow: [textbbox] is missing, [textsize] works. *)
Definition legacy_font : Font :=
  MkFont (fun _ => Raise (MkExn AttributeError "'ImageDraw' object has no attribute 'textbbox'"))
         (fun _ => Ok (80, 20)%Z).

(** As [demo_env], but the preferred font file is missing. *)
Definition fallback_env : Env :=
  MkEnv (rnd demo_env)
        (fun _ _ => Raise (MkExn IOError "cannot open resource"))
        (Ok legacy_font)
        (qr_render demo_env) (save_error demo_env) (mkdir_error demo_env)
        (alloc_error demo_env).

(** Nothing goes wrong for any item: the encoder renders every string to
    a size that is not negative and below 2^29 a side, the font measures
    every string to a box that is not inverted and below 2^29 a side, no
    file is refused for writing, and the allocator refuses no size. *)
Definition flawless (env : Env) (FONT : Font) : Prop :=
  (forall d, exists qw qh,
      qr_render env QR_BOX_SIZE QR_BORDER d = Ok (qw, qh) /\
      (0 <= qw < 2 ^ 29)%Z /\ (0 <= qh < 2 ^ 29)%Z) /\
  (forall d, exists x0 y0 x1 y1,
      font_textbbox FONT d = Ok (x0, y0, x1, y1) /\
      (0 <= x1 - x0 < 2 ^ 29)%Z /\ (0 <= y1 - y0 < 2 ^ 29)%Z) /\
  (forall f, save_error env f = None) /\
  (forall w h, alloc_error env w h = None).

(** The character [safe_filename] writes for [c]. *)
Definition sanitised (c : ascii) : ascii := if isalnum c then c else "_"%char.

(** * Properties of the model *)

(** ** Basic facts *)

Lemma pick_lookup env pos :
  str_chars characters !! (rnd env pos mod List.length (str_chars characters))%nat
  = Some (pick env pos).
Proof.
  unfold pick.
  destruct (lookup_lt_is_Some_2 (str_chars characters)
              (rnd env pos mod List.length (str_chars characters))%nat) as [c Hc].
  - apply Nat.mod_upper_bound. discriminate.
  - rewrite Hc. reflexivity.
Qed.

Lemma pick_in_alphabet env pos : pick env pos ∈ str_chars characters.
Proof. eapply list_elem_of_lookup_2, pick_lookup. Qed.

Lemma random_choice_characters env w :
  random_choice env (str_chars characters) w
  = (Ok (pick env (rng_pos w)),
     MkWorld (S (rng_pos w)) (fs w) (stdout w) (errlog w)
             (trace w ++ [EvChoice (pick env (rng_pos w))])).
Proof. unfold random_choice. rewrite pick_lookup. reflexivity. Qed.

Lemma generate_random_string_spec env n w :
  generate_random_string env n w = (Ok (sample env (rng_pos w) n), drawn env n w).
Proof.
  unfold generate_random_string. revert w.
  induction n as [|n IH]; intros w.
  - destruct w; unfold drawn; simpl. unfold ret.
    rewrite Nat.add_0_r, app_nil_r. reflexivity.
  - simpl. unfold mbind, M_bind, bind.
    rewrite random_choice_characters, IH. simpl.
    unfold mret, M_ret, ret, drawn. simpl.
    rewrite <- app_assoc. simpl.
    replace (S (rng_pos w + n)) with (rng_pos w + S n)%nat by lia.
    reflexivity.
Qed.

Lemma sample_length env pos n : String.length (sample env pos n) = n.
Proof. revert pos. induction n; intros; simpl; auto. Qed.

Lemma sample_alphabet env pos n c :
  c ∈ str_chars (sample env pos n) -> c ∈ str_chars characters.
Proof.
  revert pos. induction n as [|n IH]; intros pos; simpl.
  - intros H. inversion H.
  - intros H. apply elem_of_cons in H as [-> | H].
    + apply pick_in_alphabet.
    + eauto.
Qed.

Lemma sample_valid env pos : valid_code (sample env pos STRING_LENGTH).
Proof. split; [apply sample_length | apply sample_alphabet]. Qed.

Lemma safety_break_unreachable (num_codes : nat) (gs : gset string) :
  (num_codes * 2 <? size gs)%nat && (size gs <? num_codes)%nat = false.
Proof.
  destruct (num_codes * 2 <? size gs)%nat eqn:E1; [|reflexivity].
  destruct (size gs <? num_codes)%nat eqn:E2; [|reflexivity].
  apply Nat.ltb_lt in E1, E2. lia.
Qed.

Lemma measure_text_spec FONT d w :
  exists pre,
    measure_text FONT d w
    = (measured FONT d,
       MkWorld (rng_pos w) (fs w) (stdout w ++ pre) (errlog w) (trace w)).
Proof.
  unfold measure_text, measured. unfold_monad.
  destruct (font_textbbox FONT d) as [[[[x0 y0] x1] y1]|e].
  - exists []. rewrite app_nil_r. destruct w; reflexivity.
  - destruct (is_AttributeError e).
    + eexists [_]. simpl. reflexivity.
    + exists []. rewrite app_nil_r. destruct w; reflexivity.
Qed.

Lemma compose_and_save_spec env FONT d f w :
  exists pre,
    compose_and_save env FONT d f w
    = match rendering env FONT d f with
      | Ok img =>
          (Ok tt,
           MkWorld (rng_pos w) (<[f := File img]> (fs w))
                   (stdout w ++ pre ++ ["Successfully created: " +:+ f])
                   (errlog w) (trace w ++ [EvSave f img]))
      | Raise e =>
          (Raise e,
           MkWorld (rng_pos w) (fs w) (stdout w ++ pre) (errlog w) (trace w))
      end.
Proof.
  unfold compose_and_save, rendering, image_new, image_save.
  destruct (measure_text_spec FONT d w) as [pre Hm].
  unfold_monad.
  destruct (qr_render env QR_BOX_SIZE QR_BORDER d) as [[qw qh]|e].
  - destruct (new_refusal env 1 1) as [e|].
    + exists []. rewrite app_nil_r. destruct w; reflexivity.
    + rewrite Hm. exists pre.
      destruct (measured FONT d) as [[tw th]|e]; cbn [rng_pos fs stdout errlog trace];
        [|reflexivity].
      destruct (new_refusal env _ _) as [e|]; [reflexivity|].
      destruct (save_refusal env _ f) as [e|]; cbn [rng_pos fs stdout errlog trace];
        [reflexivity|].
      rewrite <- !app_assoc. reflexivity.
  - exists []. rewrite app_nil_r. destruct w; reflexivity.
Qed.

Lemma create_qr_with_title_spec env FONT d f w :
  exists pre,
    create_qr_with_title env FONT d f w
    = (Ok tt,
       match rendering env FONT d f with
       | Ok img =>
           MkWorld (rng_pos w) (<[f := File img]> (fs w))
                   (stdout w ++ pre ++ ["Successfully created: " +:+ f])
                   (errlog w) (trace w ++ [EvCompose d f; EvSave f img])
       | Raise e =>
           MkWorld (rng_pos w) (fs w)
                   (stdout w ++ pre ++ [failure_line d e])
                   (errlog w ++ [failure_log d e]) (trace w ++ [EvCompose d f])
       end).
Proof.
  unfold create_qr_with_title.
  unfold mbind at 1. unfold M_bind at 1. unfold bind at 1. unfold emit at 1.
  unfold try_except.
  destruct (compose_and_save_spec env FONT d f
              (MkWorld (rng_pos w) (fs w) (stdout w) (errlog w)
                       (trace w ++ [EvCompose d f]))) as [pre ->].
  exists pre.
  destruct (rendering env FONT d f) as [img|e]; cbn [rng_pos fs stdout errlog trace].
  - rewrite <- !app_assoc. reflexivity.
  - unfold_monad. cbn [rng_pos fs stdout errlog trace].
    rewrite <- !app_assoc. reflexivity.
Qed.

Lemma create_qr_with_title_ok env FONT d f w :
  create_qr_with_title env FONT d f w = (Ok tt, composer_world env FONT d f w).
Proof.
  unfold composer_world.
  destruct (create_qr_with_title_spec env FONT d f w) as [pre ->]. reflexivity.
Qed.

Lemma composer_world_spec env FONT d f w :
  exists pre,
    composer_world env FONT d f w
    = match rendering env FONT d f with
      | Ok img =>
          MkWorld (rng_pos w) (<[f := File img]> (fs w))
                  (stdout w ++ pre ++ ["Successfully created: " +:+ f])
                  (errlog w) (trace w ++ [EvCompose d f; EvSave f img])
      | Raise e =>
          MkWorld (rng_pos w) (fs w)
                  (stdout w ++ pre ++ [failure_line d e])
                  (errlog w ++ [failure_log d e]) (trace w ++ [EvCompose d f])
      end.
Proof.
  unfold composer_world.
  destruct (create_qr_with_title_spec env FONT d f w) as [pre ->].
  exists pre. reflexivity.
Qed.

(** One pass of the loop body, by cases on whether the sample is new. *)
Lemma loop_body_spec env FONT num_codes gs w :
  loop_body env FONT num_codes gs w
  = if decide (sample env (rng_pos w) STRING_LENGTH ∈ gs)
    then (Ok (gs, false), drawn env STRING_LENGTH w)
    else (Ok ({[sample env (rng_pos w) STRING_LENGTH]} ∪ gs, false),
          composer_world env FONT (sample env (rng_pos w) STRING_LENGTH)
            (output_path (sample env (rng_pos w) STRING_LENGTH))
            (drawn env STRING_LENGTH w)).
Proof.
  unfold loop_body.
  unfold mbind at 1. unfold M_bind at 1. unfold bind at 1.
  rewrite generate_random_string_spec.
  destruct (decide (sample env (rng_pos w) STRING_LENGTH ∈ gs)) as [Hin|Hin].
  - unfold mbind, M_bind, bind, mret, M_ret, ret.
    rewrite safety_break_unreachable. reflexivity.
  - unfold mbind, M_bind, bind, mret, M_ret, ret.
    rewrite create_qr_with_title_ok.
    rewrite safety_break_unreachable. reflexivity.
Qed.

(** ** File names of well-formed codes *)

Lemma alphabet_isalnum c : c ∈ str_chars characters -> isalnum c = true.
Proof.
  intros H.
  assert (Hall : forallb isalnum (str_chars characters) = true)
    by (vm_compute; reflexivity).
  rewrite List.forallb_forall in Hall. apply Hall. apply list_elem_of_In. exact H.
Qed.

Lemma alphabet_not_slash c : c ∈ str_chars characters -> c <> "/"%char.
Proof.
  intros H ->.
  assert (Hall : forallb (fun x => negb (Ascii.eqb x "/")) (str_chars characters) = true)
    by (vm_compute; reflexivity).
  rewrite List.forallb_forall in Hall.
  apply list_elem_of_In, Hall in H. discriminate.
Qed.

Lemma safe_filename_alphabet s :
  (forall c, c ∈ str_chars s -> c ∈ str_chars characters) -> safe_filename s = s.
Proof.
  unfold safe_filename. induction s as [|c s IH]; intros H; simpl; [reflexivity|].
  rewrite (alphabet_isalnum c) by (apply H; simpl; left).
  f_equal. apply IH. intros x Hx. apply H. simpl. right. exact Hx.
Qed.

Lemma output_path_alphabet s :
  (forall c, c ∈ str_chars s -> c ∈ str_chars characters) ->
  output_path s = "qr_codes_with_titles/" +:+ s +:+ ".png".
Proof.
  intros H. unfold output_path. rewrite (safe_filename_alphabet s H).
  unfold os_path_join, startswith.
  replace (lower IMAGE_FORMAT) with "png" by reflexivity.
  assert (Hp : String.prefix "/" (s +:+ "." +:+ "png") = false).
  { destruct s as [|c s]; [reflexivity|].
    change (String.prefix "/" (String c s +:+ "." +:+ "png"))
      with (if Ascii.ascii_dec "/" c then String.prefix "" (s +:+ "." +:+ "png")
            else false).
    destruct (Ascii.ascii_dec "/" c) as [Heq|Hne]; [|reflexivity].
    exfalso. apply (alphabet_not_slash c); [apply H; simpl; left | congruence]. }
  rewrite Hp. reflexivity.
Qed.

Lemma append_inj_l (p x y : string) : p +:+ x = p +:+ y -> x = y.
Proof. induction p as [|c p IH]; simpl; intros H; [exact H|]. injection H. exact IH. Qed.

Lemma append_inj_r (x y q : string) :
  String.length x = String.length y -> x +:+ q = y +:+ q -> x = y.
Proof.
  revert y. induction x as [|c x IH]; intros [|c' y] Hlen H; simpl in *;
    try discriminate; [reflexivity|].
  injection H as -> H. f_equal. apply IH; [lia|exact H].
Qed.

Lemma output_path_inj a b :
  valid_code a -> valid_code b -> output_path a = output_path b -> a = b.
Proof.
  intros [Hla Ha] [Hlb Hb] H.
  rewrite (output_path_alphabet a Ha), (output_path_alphabet b Hb) in H.
  apply append_inj_l in H. apply append_inj_r in H; [exact H|congruence].
Qed.

(** ** Trace bookkeeping *)

Lemma composed_app tr1 tr2 : composed (tr1 ++ tr2) = composed tr1 ++ composed tr2.
Proof. apply omap_app. Qed.

Lemma saved_app tr1 tr2 : saved (tr1 ++ tr2) = saved tr1 ++ saved tr2.
Proof. apply omap_app. Qed.

Lemma made_dirs_app tr1 tr2 : made_dirs (tr1 ++ tr2) = made_dirs tr1 ++ made_dirs tr2.
Proof. apply omap_app. Qed.

Lemma composed_choices l : composed (map EvChoice l) = [].
Proof. induction l; simpl; auto. Qed.

Lemma saved_choices l : saved (map EvChoice l) = [].
Proof. induction l; simpl; auto. Qed.

Lemma made_dirs_choices l : made_dirs (map EvChoice l) = [].
Proof. induction l; simpl; auto. Qed.

Lemma loop_inv_init env FONT num_codes w0 : loop_inv env FONT num_codes w0 ∅ w0.
Proof.
  split; [rewrite size_empty; lia|]. split; [set_solver|].
  exists [], []. rewrite !app_nil_r. simpl.
  repeat split; try constructor; try set_solver.
Qed.

Lemma loop_inv_step env FONT num_codes w0 gs w gs' b w' :
  loop_inv env FONT num_codes w0 gs w ->
  (size gs < num_codes)%nat ->
  loop_body env FONT num_codes gs w = (Ok (gs', b), w') ->
  b = false /\ loop_inv env FONT num_codes w0 gs' w'.
Proof.
  intros (Hsz & Hvalid & tr & log & Htr & Hlog & Hnd & Hset & Hpath & Hsaved & Hfs
          & Hcnt & Hdirs) Hlt Hbody.
  rewrite loop_body_spec in Hbody.
  set (s := sample env (rng_pos w) STRING_LENGTH) in *.
  destruct (decide (s ∈ gs)) as [Hin|Hnin].
  - injection Hbody as <- <- <-. split; [reflexivity|].
    split; [lia|]. split; [assumption|].
    exists (tr ++ map EvChoice (str_chars s)), log.
    unfold drawn; cbn [trace errlog fs]. fold s.
    rewrite Htr, <- app_assoc, composed_app, saved_app, made_dirs_app.
    rewrite composed_choices, saved_choices, made_dirs_choices, !app_nil_r.
    repeat split; assumption.
  - injection Hbody as <- <- <-. split; [reflexivity|].
    assert (Hsz' : size ({[s]} ∪ gs) = S (size gs)).
    { rewrite size_union by set_solver. rewrite size_singleton. lia. }
    split; [lia|]. split.
    { intros x Hx. apply elem_of_union in Hx as [Hx|Hx]; [|auto].
      apply elem_of_singleton in Hx as ->. apply sample_valid. }
    destruct (composer_world_spec env FONT s (output_path s) (drawn env STRING_LENGTH w))
      as [pre ->].
    assert (Hfresh : s ∉ (composed tr).*1) by (rewrite <- Hset in Hnin; set_solver).
    assert (Hnd' : NoDup ((composed tr).*1 ++ [s])).
    { apply NoDup_app. repeat split; [assumption| |apply NoDup_singleton].
      intros x Hx Hx'. apply list_elem_of_singleton in Hx'. subst. contradiction. }
    assert (Hset' : list_to_set ((composed tr).*1 ++ [s]) = ({[s]} ∪ gs : gset string)).
    { rewrite list_to_set_app_L, Hset. simpl. set_solver. }
    assert (Hpath' : forall d f, (d, f) ∈ composed tr ++ [(s, output_path s)] ->
                                 f = output_path d).
    { intros d f Hdf. apply elem_of_app in Hdf as [Hdf|Hdf]; [eauto|].
      apply list_elem_of_singleton in Hdf. congruence. }
    destruct (rendering env FONT s (output_path s)) as [img|e] eqn:Hr;
      unfold drawn; cbn [trace errlog fs]; fold s.
    + exists (tr ++ map EvChoice (str_chars s)
                 ++ [EvCompose s (output_path s); EvSave (output_path s) img]), log.
      rewrite Htr, <- !app_assoc, !composed_app, !saved_app, !made_dirs_app.
      rewrite composed_choices, saved_choices, made_dirs_choices.
      change (composed [EvCompose s (output_path s); EvSave (output_path s) img])
        with [(s, output_path s)].
      change (saved [EvCompose s (output_path s); EvSave (output_path s) img])
        with [(output_path s, img)].
      change (made_dirs [EvCompose s (output_path s); EvSave (output_path s) img])
        with (@nil string).
      rewrite Hdirs, fmap_app, !length_app, !app_nil_l.
      change ([(s, output_path s)].*1) with [s].
      cbn [length].
      split; [reflexivity|]. split; [assumption|]. split; [assumption|].
      split; [assumption|]. split; [assumption|]. split; [|split; [|split; [lia|reflexivity]]].
      * intros f img' Hf. apply elem_of_app in Hf as [Hf|Hf].
        -- destruct (Hsaved _ _ Hf) as (d & Hd & -> & Hrd).
           exists d. split; [set_solver|]. split; [reflexivity|assumption].
        -- apply list_elem_of_singleton in Hf. injection Hf as -> ->.
           exists s. split; [set_solver|]. split; [reflexivity|assumption].
      * intros f img' Hf. apply elem_of_app in Hf as [Hf|Hf].
        -- destruct (Hsaved _ _ Hf) as (d & Hd & -> & Hrd).
           rewrite lookup_insert_ne; [eauto|].
           intros Heq. apply output_path_inj in Heq; [congruence| |auto].
           apply sample_valid.
        -- apply list_elem_of_singleton in Hf. injection Hf as -> ->.
           apply lookup_insert_eq.
    + exists (tr ++ map EvChoice (str_chars s) ++ [EvCompose s (output_path s)]),
             (log ++ [failure_log s e]).
      rewrite Htr, Hlog, <- !app_assoc, !composed_app, !saved_app, !made_dirs_app.
      rewrite composed_choices, saved_choices, made_dirs_choices.
      change (composed [EvCompose s (output_path s)]) with [(s, output_path s)].
      change (saved [EvCompose s (output_path s)]) with (@nil (string * Image)).
      change (made_dirs [EvCompose s (output_path s)]) with (@nil string).
      rewrite Hdirs, fmap_app, !length_app, !app_nil_r, !app_nil_l.
      change ([(s, output_path s)].*1) with [s].
      cbn [length].
      split; [reflexivity|]. split; [reflexivity|]. split; [assumption|].
      split; [assumption|]. split; [assumption|].
      split; [|split; [assumption|split; [lia|reflexivity]]].
      intros f img' Hf.
      destruct (Hsaved _ _ Hf) as (d & Hd & -> & Hrd).
      exists d. split; [set_solver|]. split; [reflexivity|assumption].
Qed.

(** Whatever the loop returns, it is a set of exactly [num_codes] codes, and
    the invariant holds of it. *)
Lemma main_loop_post env FONT num_codes w0 fuel :
  forall gs w r w',
    loop_inv env FONT num_codes w0 gs w ->
    main_loop env FONT num_codes fuel gs w = Some (r, w') ->
    exists gs', r = Ok gs' /\ size gs' = num_codes /\
                loop_inv env FONT num_codes w0 gs' w'.
Proof.
  induction fuel as [|fuel IH]; intros gs w r w' Hinv Hrun; simpl in Hrun.
  - discriminate.
  - destruct (size gs <? num_codes)%nat eqn:Hlt.
    + apply Nat.ltb_lt in Hlt.
      destruct (loop_body env FONT num_codes gs w) as [[[gs1 b]|e] w1] eqn:Hbody.
      * destruct (loop_inv_step _ _ _ _ _ _ _ _ _ Hinv Hlt Hbody) as [-> Hinv1].
        eauto.
      * rewrite loop_body_spec in Hbody. destruct (decide _); discriminate.
    + apply Nat.ltb_ge in Hlt. injection Hrun as <- <-.
      exists gs. split; [reflexivity|]. split; [|assumption].
      destruct Hinv as (Hsz & _). lia.
Qed.

(** ** Termination of the loop on a source that keeps offering new strings *)

Lemma main_loop_unfold env FONT num_codes fuel gs w :
  main_loop env FONT num_codes (S fuel) gs w
  = if (size gs <? num_codes)%nat then
      match loop_body env FONT num_codes gs w with
      | (Raise e, w') => Some (Raise e, w')
      | (Ok (gs', true), w') => Some (Ok gs', w')
      | (Ok (gs', false), w') => main_loop env FONT num_codes fuel gs' w'
      end
    else Some (Ok gs, w).
Proof. reflexivity. Qed.

Lemma composer_world_rng_pos env FONT d f w :
  rng_pos (composer_world env FONT d f w) = rng_pos w.
Proof.
  destruct (composer_world_spec env FONT d f w) as [pre ->].
  destruct (rendering env FONT d f); reflexivity.
Qed.

Lemma main_loop_terminates env FONT num_codes fuel :
  forall gs w,
    (num_codes <= size (gs ∪ list_to_set (samples env (rng_pos w) fuel)))%nat ->
    exists gs' w', main_loop env FONT num_codes (S fuel) gs w = Some (Ok gs', w').
Proof.
  induction fuel as [|fuel IH]; intros gs w Hfair; rewrite main_loop_unfold.
  - simpl in Hfair. rewrite (right_id_L ∅ (∪)) in Hfair.
    destruct (size gs <? num_codes)%nat eqn:Hlt; [|eauto].
    apply Nat.ltb_lt in Hlt. lia.
  - destruct (size gs <? num_codes)%nat eqn:Hlt; [|eauto].
    rewrite loop_body_spec.
    cbn [samples list_to_set foldr] in Hfair.
    set (s := sample env (rng_pos w) STRING_LENGTH) in *.
    destruct (decide (s ∈ gs)) as [Hin|Hnin].
    + apply IH. unfold drawn; cbn [rng_pos].
      replace (gs ∪ ({[s]} ∪ list_to_set (samples env (rng_pos w + STRING_LENGTH) fuel)))
        with (gs ∪ list_to_set (samples env (rng_pos w + STRING_LENGTH) fuel) : gset string)
        in Hfair by set_solver.
      exact Hfair.
    + apply IH. rewrite composer_world_rng_pos. unfold drawn; cbn [rng_pos].
      replace (gs ∪ ({[s]} ∪ list_to_set (samples env (rng_pos w + STRING_LENGTH) fuel)))
        with ({[s]} ∪ gs ∪ list_to_set (samples env (rng_pos w + STRING_LENGTH) fuel)
              : gset string)
        in Hfair by set_solver.
      exact Hfair.
Qed.

(** ** The size of the code space *)

Lemma length_flat_map_const {A B} (f : A -> list B) (l : list A) (k : nat) :
  (forall x, length (f x) = k) -> length (flat_map f l) = (length l * k)%nat.
Proof.
  intros Hf. induction l as [|x l IH]; simpl; [reflexivity|].
  rewrite length_app, Hf, IH. reflexivity.
Qed.

Lemma all_codes_length n : length (all_codes n) = (36 ^ n)%nat.
Proof.
  induction n as [|n IH]; [reflexivity|].
  cbn [all_codes]. rewrite (length_flat_map_const _ _ (36 ^ n)%nat).
  - rewrite Nat.pow_succ_r'. reflexivity.
  - intros c. rewrite length_map. exact IH.
Qed.

Lemma all_codes_complete n s :
  String.length s = n ->
  (forall c, c ∈ str_chars s -> c ∈ str_chars characters) ->
  s ∈ all_codes n.
Proof.
  revert s. induction n as [|n IH]; intros [|c s] Hlen Hal; simpl in Hlen;
    try discriminate.
  - simpl. left.
  - cbn [all_codes]. apply list_elem_of_In, in_flat_map.
    exists c. split.
    + apply list_elem_of_In, Hal. simpl. left.
    + apply in_map, list_elem_of_In, IH; [lia|].
      intros x Hx. apply Hal. simpl. right. exact Hx.
Qed.

Lemma size_list_to_set_le (l : list string) :
  (size (list_to_set l : gset string) <= length l)%nat.
Proof.
  induction l as [|x l IH].
  - rewrite list_to_set_nil, size_empty. reflexivity.
  - rewrite list_to_set_cons, size_union_alt, size_singleton. cbn [length].
    assert (size (list_to_set l ∖ {[x]} : gset string) <= size (list_to_set l : gset string))%nat
      by (apply subseteq_size; set_solver).
    lia.
Qed.

(** A set of well-formed codes has at most 36^5 elements. *)
Lemma code_space_bound (gs : gset string) :
  (forall s, s ∈ gs -> valid_code s) -> (size gs <= 36 ^ 5)%nat.
Proof.
  intros Hvalid.
  rewrite <- (all_codes_length 5).
  etransitivity; [|apply size_list_to_set_le].
  apply subseteq_size. intros s Hs. apply elem_of_list_to_set.
  destruct (Hvalid s Hs) as [Hlen Hal]. apply all_codes_complete; assumption.
Qed.

(** X3.  A request for more codes than the code space holds never ends,
    whatever the random source: the loop can only stop with exactly
    [num_codes] well-formed codes in hand. *)
Lemma oversized_request_never_stops env FONT num_codes fuel w :
  (36 ^ 5 < num_codes)%nat ->
  main_loop env FONT num_codes fuel ∅ w = None.
Proof.
  intros Hbig.
  destruct (main_loop env FONT num_codes fuel ∅ w) as [[r w']|] eqn:Hrun;
    [|reflexivity].
  destruct (main_loop_post _ _ _ w _ _ _ _ _ (loop_inv_init _ _ _ _) Hrun)
    as (gs & _ & Hsize & _ & Hvalid & _).
  apply code_space_bound in Hvalid. lia.
Qed.

(** ** Setting up the output directory and starting the run *)

Lemma setup_spec env (line : string) w :
  (os_makedirs env OUTPUT_DIR;; print line) w
  = match fs w !! OUTPUT_DIR with
    | Some Dir =>
        (Ok tt, MkWorld (rng_pos w) (fs w) (stdout w ++ [line]) (errlog w)
                        (trace w ++ [EvMakedirs OUTPUT_DIR]))
    | Some (File _) =>
        (Raise (MkExn IOError ("File exists: '" +:+ OUTPUT_DIR +:+ "'")),
         MkWorld (rng_pos w) (fs w) (stdout w) (errlog w)
                 (trace w ++ [EvMakedirs OUTPUT_DIR]))
    | None =>
        match mkdir_error env OUTPUT_DIR with
        | Some e =>
            (Raise e, MkWorld (rng_pos w) (fs w) (stdout w) (errlog w)
                              (trace w ++ [EvMakedirs OUTPUT_DIR]))
        | None =>
            (Ok tt, MkWorld (rng_pos w) (<[OUTPUT_DIR := Dir]> (fs w))
                            (stdout w ++ [line]) (errlog w)
                            (trace w ++ [EvMakedirs OUTPUT_DIR]))
        end
    end.
Proof.
  unfold os_makedirs. unfold_monad.
  destruct (fs w !! OUTPUT_DIR) as [[|img]|]; try reflexivity.
  destruct (mkdir_error env OUTPUT_DIR); reflexivity.
Qed.

(** The world in which the loop starts, when the set-up goes through. *)
Lemma setup_ok env (line : string) w :
  makedirs_ok env w ->
  exists fs1,
    (os_makedirs env OUTPUT_DIR;; print line) w
    = (Ok tt, MkWorld (rng_pos w) fs1 (stdout w ++ [line]) (errlog w)
                      (trace w ++ [EvMakedirs OUTPUT_DIR])).
Proof.
  unfold makedirs_ok. intros Hok. rewrite setup_spec.
  destruct (fs w !! OUTPUT_DIR) as [[|img]|]; [eauto|contradiction|].
  rewrite Hok. eauto.
Qed.

Lemma main_loop_never_raises env FONT num_codes fuel :
  forall gs w r w',
    main_loop env FONT num_codes fuel gs w = Some (r, w') -> exists gs', r = Ok gs'.
Proof.
  induction fuel as [|fuel IH]; intros gs w r w' Hrun; [discriminate|].
  rewrite main_loop_unfold, loop_body_spec in Hrun.
  destruct (size gs <? num_codes)%nat.
  - destruct (decide _); eauto.
  - injection Hrun as <- <-. eauto.
Qed.

Lemma load_font_spec env w :
  load_font env w
  = match truetype env "arial.ttf" FONT_SIZE with
    | Ok f => (Ok (FontReady f), w)
    | Raise e =>
        if is_IOError e then
          match load_default env with
          | Ok f =>
              (Ok (FontReady f),
               MkWorld (rng_pos w) (fs w)
                 (stdout w ++ ["Warning: Default font 'arial.ttf' not found. Using Pillow's default font."])
                 (errlog w) (trace w))
          | Raise e' =>
              (Ok (SystemExit None),
               MkWorld (rng_pos w) (fs w)
                 (stdout w ++ ["Warning: Default font 'arial.ttf' not found. Using Pillow's default font.";
                               "Error: Could not load any font. Please install a font or check Pillow installation."])
                 (errlog w ++ ["Could not load even the default PIL font: " +:+ exn_msg e'])
                 (trace w))
          end
        else (Raise e, w)
    end.
Proof.
  unfold load_font. unfold_monad.
  destruct (truetype env "arial.ttf" FONT_SIZE) as [f|e]; [reflexivity|].
  destruct (is_IOError e); [|reflexivity].
  destruct (load_default env) as [f|e']; cbn [rng_pos fs stdout errlog trace].
  - reflexivity.
  - rewrite <- app_assoc. reflexivity.
Qed.

(** ** What a saved image is made of *)


Lemma composed_image_inv env FONT d f w w' img :
  create_qr_with_title env FONT d f w = (Ok tt, w') ->
  trace w' = trace w ++ [EvCompose d f; EvSave f img] ->
  rendering env FONT d f = Ok img /\ fs w' = <[f := File img]> (fs w).
Proof.
  intros Hrun Htr.
  destruct (create_qr_with_title_spec env FONT d f w) as [pre Hspec].
  rewrite Hspec in Hrun. injection Hrun as <-.
  destruct (rendering env FONT d f) as [img'|e]; cbn [trace fs] in *.
  - apply app_inv_head in Htr. injection Htr as ->. split; reflexivity.
  - apply app_inv_head in Htr. discriminate.
Qed.

Lemma rendering_ok_inv env FONT d f img :
  rendering env FONT d f = Ok img ->
  exists qw qh tw th,
    qr_render env QR_BOX_SIZE QR_BORDER d = Ok (qw, qh) /\
    measured FONT d = Ok (tw, th) /\
    img = layout d qw qh tw th /\
    save_error env f = None.
Proof.
  unfold rendering, save_refusal. intros H.
  destruct (qr_render env QR_BOX_SIZE QR_BORDER d) as [[qw qh]|e]; [|discriminate].
  destruct (new_refusal env 1 1); [discriminate|].
  destruct (measured FONT d) as [[tw th]|e]; [|discriminate].
  destruct (new_refusal env _ _); [discriminate|].
  destruct (save_error env f); [discriminate|].
  destruct ((_ =? 0) || (_ =? 0))%Z; [discriminate|].
  injection H as <-. exists qw, qh, tw, th. auto.
Qed.

(** ** The exit status *)

Lemma main_outcome env FONT num_codes fuel w r w' :
  main env FONT num_codes fuel w = Some (r, w') ->
  (makedirs_ok env w /\ r = Ok tt) \/ (~ makedirs_ok env w /\ exists e, r = Raise e).
Proof.
  unfold main, makedirs_ok. rewrite setup_spec. intros Hmain.
  assert (Hloop : forall w1 : World,
            match main_loop env FONT num_codes fuel ∅ w1 with
            | Some (Ok generated_strings, w2) =>
                Some (print (newline +:+ "Finished generating "
                             +:+ pretty (size generated_strings) +:+ " QR codes.") w2)
            | Some (Raise e, w2) => Some (Raise e, w2)
            | None => None
            end = Some (r, w') -> r = Ok tt).
  { intros w1 H.
    destruct (main_loop env FONT num_codes fuel ∅ w1) as [[r2 w2]|] eqn:Hrun;
      [|discriminate].
    destruct (main_loop_never_raises _ _ _ _ _ _ _ _ Hrun) as [gs ->].
    injection H as <- _. reflexivity. }
  destruct (fs w !! OUTPUT_DIR) as [[|img]|].
  - left. split; [exact I|]. eapply Hloop, Hmain.
  - right. injection Hmain as <- _. split; [tauto|eauto].
  - destruct (mkdir_error env OUTPUT_DIR) as [e|].
    + right. injection Hmain as <- _. split; [discriminate|eauto].
    + left. split; [reflexivity|]. eapply Hloop, Hmain.
Qed.

Lemma script_with_font env FONT num_codes fuel w st w' :
  match main env FONT num_codes fuel w with
  | None => None
  | Some (Raise _, w2) => Some (1%Z, w2)
  | Some (Ok _, w2) => Some (0%Z, w2)
  end = Some (st, w') ->
  (st <> 0%Z <-> ~ makedirs_ok env w).
Proof.
  destruct (main env FONT num_codes fuel w) as [[r w2]|] eqn:Hmain; [|discriminate].
  destruct (main_outcome _ _ _ _ _ _ _ Hmain) as [[Hok ->]|[Hno [e ->]]];
    intros H; injection H as <- _.
  - split; [congruence|contradiction].
  - split; [auto|discriminate].
Qed.

(** ** Invariants of the loop, in general *)

Lemma main_loop_invariant env FONT num_codes (P : gset string -> World -> Prop) :
  (forall gs w gs' w',
     P gs w -> (size gs < num_codes)%nat ->
     loop_body env FONT num_codes gs w = (Ok (gs', false), w') -> P gs' w') ->
  forall fuel gs w r w',
    P gs w ->
    main_loop env FONT num_codes fuel gs w = Some (r, w') ->
    exists gs', r = Ok gs' /\ P gs' w' /\ (num_codes <= size gs')%nat.
Proof.
  intros Hstep. induction fuel as [|fuel IH]; intros gs w r w' HP Hrun; [discriminate|].
  rewrite main_loop_unfold in Hrun.
  destruct (size gs <? num_codes)%nat eqn:Hlt.
  - apply Nat.ltb_lt in Hlt.
    destruct (loop_body env FONT num_codes gs w) as [[[gs1 b]|e] w1] eqn:Hbody.
    + assert (Hb : b = false).
      { rewrite loop_body_spec in Hbody. destruct (decide _); congruence. }
      subst b. eapply IH; [|exact Hrun]. eapply Hstep; eauto.
    + rewrite loop_body_spec in Hbody. destruct (decide _); discriminate.
  - apply Nat.ltb_ge in Hlt. injection Hrun as <- <-. eauto.
Qed.

(** The loop changes no path but the output paths of its codes. *)
Lemma main_loop_frame env FONT num_codes fuel w gs w' :
  main_loop env FONT num_codes fuel ∅ w = Some (Ok gs, w') ->
  forall p, (forall d, d ∈ gs -> p <> output_path d) -> fs w' !! p = fs w !! p.
Proof.
  intros Hrun.
  destruct (main_loop_invariant env FONT num_codes
              (fun g v => forall p, (forall d, d ∈ g -> p <> output_path d) ->
                                    fs v !! p = fs w !! p)) with
      (fuel := fuel) (gs := (∅ : gset string)) (w := w) (r := Ok gs) (w' := w')
    as (gs' & Heq & Hframe & _); [| reflexivity | exact Hrun |].
  - intros g v g' v' Hfr _ Hbody.
    rewrite loop_body_spec in Hbody.
    set (s := sample env (rng_pos v) STRING_LENGTH) in *.
    destruct (decide (s ∈ g)) as [Hin|Hnin]; injection Hbody as <- <-.
    + intros p Hp. unfold drawn; cbn [fs]. apply Hfr, Hp.
    + intros p Hp.
      destruct (composer_world_spec env FONT s (output_path s) (drawn env STRING_LENGTH v))
        as [pre ->].
      assert (Hold : fs v !! p = fs w !! p).
      { apply Hfr. intros d Hd. apply Hp. apply elem_of_union_r. exact Hd. }
      destruct (rendering env FONT s (output_path s)); unfold drawn; cbn [fs].
      * rewrite lookup_insert_ne; [exact Hold|].
        intros Heq. apply (Hp s);
          [apply elem_of_union_l, elem_of_singleton; reflexivity|symmetry; exact Heq].
      * exact Hold.
  - injection Heq as <-. exact Hframe.
Qed.


(** The output directory is not the output path of any well-formed code. *)
Lemma output_dir_is_no_code_path d :
  (forall c, c ∈ str_chars d -> c ∈ str_chars characters) -> OUTPUT_DIR <> output_path d.
Proof.
  intros Hal Heq. rewrite (output_path_alphabet d Hal) in Heq.
  change OUTPUT_DIR with ("qr_codes_with_titles" +:+ "") in Heq.
  change ("qr_codes_with_titles/" +:+ d +:+ ".png")
    with ("qr_codes_with_titles" +:+ String "/" (d +:+ ".png")) in Heq.
  apply append_inj_l in Heq. discriminate.
Qed.

(** * The claims *)

(** C1.  Whenever the random source offers at least [num_codes] different
    strings among its first [fuel] samples, which it can only for
    [num_codes] up to 36^5, the generation loop of lines 109-122 ends and
    returns a set of exactly [num_codes] strings, each of five characters
    drawn from [A-Z0-9]; the codes handed to the composer, in order, are
    pairwise distinct, [num_codes] in number, and are exactly that set. *)
Theorem run_produces_distinct_wellformed_codes
    (env : Env) (FONT : Font) (num_codes fuel : nat) (w : World) :
  (num_codes <= size (list_to_set (samples env (rng_pos w) fuel) : gset string))%nat ->
  exists (gs : gset string) (w' : World) (codes : list string),
    (num_codes <= 36 ^ 5)%nat /\
    main_loop env FONT num_codes (S fuel) ∅ w = Some (Ok gs, w') /\
    size gs = num_codes /\
    (forall s, s ∈ gs ->
       String.length s = 5%nat /\
       forall c, c ∈ str_chars s -> c ∈ str_chars "ABCDEFGHIJKLMNOPQRSTUVWXYZ0123456789") /\
    (composed (trace w')).*1 = (composed (trace w)).*1 ++ codes /\
    NoDup codes /\
    length codes = num_codes /\
    (forall s, s ∈ codes <-> s ∈ gs).
Proof.
  intros Hfair.
  destruct (main_loop_terminates env FONT num_codes fuel ∅ w) as (gs & w' & Hrun).
  { rewrite (left_id_L ∅ (∪)). exact Hfair. }
  destruct (main_loop_post _ _ _ w _ _ _ _ _ (loop_inv_init _ _ _ _) Hrun)
    as (gs' & Heq & Hsize & _ & Hvalid & tr & log & Htr & _ & Hnd & Hset & _).
  injection Heq as <-.
  exists gs, w', (composed tr).*1.
  split; [rewrite <- Hsize; apply code_space_bound; exact Hvalid|].
  split; [exact Hrun|]. split; [exact Hsize|]. split; [exact Hvalid|].
  split; [rewrite Htr, composed_app, fmap_app; reflexivity|].
  split; [exact Hnd|]. split.
  - rewrite <- Hsize, <- Hset. symmetry. apply size_list_to_set. exact Hnd.
  - intros s. rewrite <- Hset. rewrite elem_of_list_to_set. reflexivity.
Qed.

(** C2.  The safety break of lines 119-122 can never fire, so a random
    source that keeps returning the same string keeps the loop running:
    with every draw selecting index 0 (every sample is AAAAA) and 24 codes
    requested, the loop has not finished after any number of passes. *)
Theorem stalled_generation_never_stops
    (env : Env) (FONT : Font) (fuel : nat) (w : World) :
  main_loop (with_rnd (fun _ => 0%nat) env) FONT NUM_CODES fuel ∅ w = None.
Proof.
  assert (Hgen : forall n gs v, gs ⊆ ({["AAAAA"]} : gset string) ->
            main_loop (with_rnd (fun _ => 0%nat) env) FONT NUM_CODES n gs v = None).
  { induction n as [|n IH]; intros gs v Hsub; [reflexivity|].
    rewrite main_loop_unfold.
    assert (Hsz : (size gs <= 1)%nat).
    { rewrite <- (size_singleton (C := gset string) "AAAAA").
      apply subseteq_size. exact Hsub. }
    replace (size gs <? NUM_CODES)%nat with true
      by (symmetry; apply Nat.ltb_lt; unfold NUM_CODES; lia).
    rewrite loop_body_spec.
    change (sample (with_rnd (fun _ => 0%nat) env) (rng_pos v) STRING_LENGTH)
      with "AAAAA".
    destruct (decide ("AAAAA" ∈ gs)); apply IH; set_solver. }
  apply Hgen. set_solver.
Qed.

(** C3 (as the code has it).  When the output directory can be set up and
    the random source offers enough different strings, the run completes
    whether or not image writes fail, and its last line of output reports
    the number of unique codes generated, which is the requested count;
    the number of images written is that count less the number of failed
    items, so strictly less when at least one item failed. *)
Theorem summary_reports_generated_codes
    (env : Env) (FONT : Font) (num_codes fuel : nat) (w : World) :
  makedirs_ok env w ->
  (num_codes <= size (list_to_set (samples env (rng_pos w) fuel) : gset string))%nat ->
  exists (w' : World) (tr : list Event) (log : list string),
    main env FONT num_codes (S fuel) w = Some (Ok tt, w') /\
    last (stdout w') = Some (summary_line num_codes) /\
    trace w' = trace w ++ tr /\
    errlog w' = errlog w ++ log /\
    length (composed tr) = num_codes /\
    (length (saved tr) + length log = num_codes)%nat /\
    (log <> [] -> (length (saved tr) < num_codes)%nat).
Proof.
  intros Hok Hfair. unfold main.
  destruct (setup_ok env ("Generating " +:+ pretty num_codes
                          +:+ " QR codes in directory '" +:+ OUTPUT_DIR +:+ "'...")
                     w Hok) as [fs1 ->].
  set (w1 := MkWorld (rng_pos w) fs1 _ (errlog w) _).
  destruct (main_loop_terminates env FONT num_codes fuel ∅ w1) as (gs & w2 & Hrun).
  { rewrite (left_id_L ∅ (∪)). exact Hfair. }
  rewrite Hrun.
  destruct (main_loop_post _ _ _ w1 _ _ _ _ _ (loop_inv_init _ _ _ _) Hrun)
    as (gs' & Heq & Hsize & _ & _ & tr & log & Htr & Hlog & Hnd & Hset & _ & _ & _
        & Hcnt & _).
  injection Heq as <-.
  assert (Hlen : length (composed tr) = num_codes).
  { rewrite <- Hsize, <- Hset, size_list_to_set by exact Hnd.
    rewrite length_fmap. reflexivity. }
  eexists _, (EvMakedirs OUTPUT_DIR :: tr), log.
  split; [reflexivity|]. unfold print; cbn [stdout trace errlog].
  split; [rewrite Hsize; apply last_snoc|].
  split; [rewrite Htr; subst w1; cbn [trace]; rewrite <- app_assoc; reflexivity|].
  split; [rewrite Hlog; reflexivity|].
  change (composed (EvMakedirs OUTPUT_DIR :: tr)) with (composed tr).
  change (saved (EvMakedirs OUTPUT_DIR :: tr)) with (saved tr).
  split; [exact Hlen|]. split; [lia|].
  intros Hne. destruct log; [contradiction|]. simpl in Hcnt. lia.
Qed.

(** C4 (as the code has it).  When no font can be loaded (the preferred
    font raises IOError and the built-in fallback raises), the script stops
    with nothing drawn, no directory made and nothing saved, and its exit
    status is 0, because [exit()] is called without a status.  A run that
    ends has a non-zero status exactly when an exception goes uncaught:
    the preferred font raises something other than IOError, or a font is
    there and the output directory cannot be set up.  Every other run that
    ends has status 0. *)
Theorem font_failure_stops_before_work
    (env : Env) (num_codes fuel : nat) (w : World) :
  (fonts_unavailable env ->
   exists w', script env num_codes fuel w = Some (0%Z, w') /\
              trace w' = trace w /\ fs w' = fs w /\ rng_pos w' = rng_pos w) /\
  (forall st w',
     script env num_codes fuel w = Some (st, w') ->
     (st <> 0%Z <->
      (exists e, truetype env "arial.ttf" FONT_SIZE = Raise e /\ is_IOError e = false)
      \/ (~ fonts_unavailable env /\ ~ makedirs_ok env w))).
Proof.
  unfold script, fonts_unavailable. rewrite load_font_spec. split.
  - intros (e & e' & -> & -> & ->). eexists. split; [reflexivity|].
    cbn [trace fs rng_pos]. auto.
  - intros st w' Hrun.
    destruct (truetype env "arial.ttf" FONT_SIZE) as [F|e] eqn:Htt.
    + rewrite (script_with_font _ _ _ _ _ _ _ Hrun). split.
      * intros Hno. right. split; [|exact Hno].
        intros (e & e' & He & _). discriminate.
      * intros [(e & He & _)|[_ Hno]]; [discriminate|exact Hno].
    + destruct (is_IOError e) eqn:Hio.
      * destruct (load_default env) as [F|e'] eqn:Hld.
        -- rewrite (script_with_font _ _ _ _ _ _ _ Hrun).
           unfold makedirs_ok; cbn [fs]. split.
           ++ intros Hno. right. split; [|exact Hno].
              intros (e1 & e2 & _ & _ & He2). discriminate.
           ++ intros [(e1 & He1 & Hf)|[_ Hno]]; [|exact Hno].
              injection He1 as <-. congruence.
        -- injection Hrun as <- _. split; [congruence|].
           intros [(e1 & He1 & Hf)|[Hav _]].
           ++ injection He1 as <-. congruence.
           ++ exfalso. apply Hav. eauto.
      * injection Hrun as <- _. split; [|discriminate].
        intros _. left. eauto.
Qed.


(** C6.  When the [try] block of the composer raises an exception [e] for
    a code, [create_qr_with_title] still returns normally: it logs the
    failure with the code and the message, prints the error line, and
    leaves the file system and the saved images as they were.  Every pass
    of the loop body therefore ends normally and without [break], and the
    loop never ends in an exception. *)
Theorem per_item_failure_is_contained
    (env : Env) (FONT : Font) (d f : string) (w w1 : World) (e : exn) :
  compose_and_save env FONT d f (emit (EvCompose d f) w).2 = (Raise e, w1) ->
  (exists w',
     create_qr_with_title env FONT d f w = (Ok tt, w') /\
     errlog w' = errlog w ++ ["Failed to create QR code for '" +:+ d +:+ "': " +:+ exn_msg e] /\
     last (stdout w') = Some ("Error processing '" +:+ d +:+ "': " +:+ exn_msg e) /\
     fs w' = fs w /\
     saved (trace w') = saved (trace w)) /\
  (forall num_codes gs v, exists gs' v',
     loop_body env FONT num_codes gs v = (Ok (gs', false), v')) /\
  (forall num_codes fuel gs v r v',
     main_loop env FONT num_codes fuel gs v = Some (r, v') -> exists gs', r = Ok gs').
Proof.
  intros Hbody. split; [|split].
  - destruct (compose_and_save_spec env FONT d f (emit (EvCompose d f) w).2)
      as [pre Hspec].
    rewrite Hspec in Hbody.
    destruct (create_qr_with_title_spec env FONT d f w) as [pre' Hc].
    destruct (rendering env FONT d f) as [img|e0]; [discriminate|].
    injection Hbody as -> _.
    eexists. split; [exact Hc|]. cbn [errlog stdout fs trace].
    split; [reflexivity|]. split.
    + rewrite app_assoc. apply last_snoc.
    + split; [reflexivity|]. rewrite saved_app. simpl. apply app_nil_r.
  - intros num_codes gs v. rewrite loop_body_spec. destruct (decide _); eauto.
  - intros num_codes fuel. apply main_loop_never_raises.
Qed.


(** C8.  Two runs of the composer on the same code with the same
    environment and font, from any two worlds and under any two file names,
    save images of the same width and the same height. *)
Theorem recomposition_keeps_dimensions
    (env : Env) (FONT : Font) (d f g : string) (w w' v v' : World)
    (img1 img2 : Image) :
  create_qr_with_title env FONT d f w = (Ok tt, w') ->
  trace w' = trace w ++ [EvCompose d f; EvSave f img1] ->
  create_qr_with_title env FONT d g v = (Ok tt, v') ->
  trace v' = trace v ++ [EvCompose d g; EvSave g img2] ->
  img_width img1 = img_width img2 /\ img_height img1 = img_height img2.
Proof.
  intros Hrun1 Htr1 Hrun2 Htr2.
  destruct (composed_image_inv _ _ _ _ _ _ _ Hrun1 Htr1) as [Hr1 _].
  destruct (composed_image_inv _ _ _ _ _ _ _ Hrun2 Htr2) as [Hr2 _].
  destruct (rendering_ok_inv _ _ _ _ _ Hr1) as (qw & qh & tw & th & Hq1 & Hm1 & -> & _).
  destruct (rendering_ok_inv _ _ _ _ _ Hr2) as (qw' & qh' & tw' & th' & Hq2 & Hm2 & -> & _).
  rewrite Hq1 in Hq2. rewrite Hm1 in Hm2.
  injection Hq2 as <- <-. injection Hm2 as <- <-. split; reflexivity.
Qed.

(** C9.  In every run of [main] that returns, the output directory is
    made by the first call of the run and by no later one, so before any
    random draw, composer call or save.  When the directory already
    exists the call raises nothing and leaves the file system exactly as
    it was; when it is absent and the call returns, the directory is there
    and nothing else has changed; and after every run that ends normally
    the directory exists. *)
Theorem output_dir_created_once_up_front
    (env : Env) (FONT : Font) (num_codes fuel : nat) (w w' : World)
    (r : Res unit) :
  main env FONT num_codes fuel w = Some (r, w') ->
  (exists rest,
     trace w' = trace w ++ EvMakedirs OUTPUT_DIR :: rest /\ made_dirs rest = []) /\
  (fs w !! OUTPUT_DIR = Some Dir ->
   exists w1, os_makedirs env OUTPUT_DIR w = (Ok tt, w1) /\ fs w1 = fs w) /\
  (fs w !! OUTPUT_DIR = None ->
   forall w1, os_makedirs env OUTPUT_DIR w = (Ok tt, w1) ->
              fs w1 = <[OUTPUT_DIR := Dir]> (fs w)) /\
  (r = Ok tt -> fs w' !! OUTPUT_DIR = Some Dir).
Proof.
  intros Hmain. split; [|split; [|split]].
  - unfold main in Hmain. rewrite setup_spec in Hmain.
    assert (Hloop : forall w1 : World,
              trace w1 = trace w ++ [EvMakedirs OUTPUT_DIR] ->
              match main_loop env FONT num_codes fuel ∅ w1 with
              | Some (Ok generated_strings, w2) =>
                  Some (print (newline +:+ "Finished generating "
                               +:+ pretty (size generated_strings) +:+ " QR codes.") w2)
              | Some (Raise e, w2) => Some (Raise e, w2)
              | None => None
              end = Some (r, w') ->
              exists rest,
                trace w' = trace w ++ EvMakedirs OUTPUT_DIR :: rest /\ made_dirs rest = []).
    { intros w1 Hw1 H.
      destruct (main_loop env FONT num_codes fuel ∅ w1) as [[r2 w2]|] eqn:Hrun;
        [|discriminate].
      destruct (main_loop_post _ _ _ w1 _ _ _ _ _ (loop_inv_init _ _ _ _) Hrun)
        as (gs' & -> & _ & _ & _ & tr & log & Htr & _ & _ & _ & _ & _ & _ & _ & Hdirs).
      injection H as <- <-. exists tr. cbn [trace].
      rewrite Htr, Hw1, <- app_assoc. split; [reflexivity|exact Hdirs]. }
    destruct (fs w !! OUTPUT_DIR) as [[|img]|].
    + eapply Hloop; [|exact Hmain]. reflexivity.
    + injection Hmain as <- <-. exists []. split; reflexivity.
    + destruct (mkdir_error env OUTPUT_DIR).
      * injection Hmain as <- <-. exists []. split; reflexivity.
      * eapply Hloop; [|exact Hmain]. reflexivity.
  - intros Hdir. unfold os_makedirs. rewrite Hdir. eexists. split; reflexivity.
  - intros Hnone w1. unfold os_makedirs. rewrite Hnone.
    destruct (mkdir_error env OUTPUT_DIR); intros H; [discriminate|].
    injection H as <-. reflexivity.
  - intros ->. unfold main in Hmain. rewrite setup_spec in Hmain.
    assert (Hloop : forall w1 : World,
              fs w1 !! OUTPUT_DIR = Some Dir ->
              match main_loop env FONT num_codes fuel ∅ w1 with
              | Some (Ok generated_strings, w2) =>
                  Some (print (newline +:+ "Finished generating "
                               +:+ pretty (size generated_strings) +:+ " QR codes.") w2)
              | Some (Raise e, w2) => Some (Raise e, w2)
              | None => None
              end = Some (Ok tt, w') ->
              fs w' !! OUTPUT_DIR = Some Dir).
    { intros w1 Hw1 H.
      destruct (main_loop env FONT num_codes fuel ∅ w1) as [[r2 w2]|] eqn:Hrun;
        [|discriminate].
      destruct (main_loop_post _ _ _ w1 _ _ _ _ _ (loop_inv_init _ _ _ _) Hrun)
        as (gs' & -> & _ & _ & Hvalid & _).
      injection H as <-. cbn [fs].
      rewrite (main_loop_frame _ _ _ _ _ _ _ Hrun); [exact Hw1|].
      intros d Hd. apply output_dir_is_no_code_path. apply (Hvalid d Hd). }
    destruct (fs w !! OUTPUT_DIR) as [[|img]|] eqn:Hdir.
    + eapply Hloop; [|exact Hmain]. exact Hdir.
    + discriminate.
    + destruct (mkdir_error env OUTPUT_DIR); [discriminate|].
      eapply Hloop; [|exact Hmain]. cbn [fs]. apply lookup_insert_eq.
Qed.


(** * Further properties of the script *)

(** ** Helpers for the further properties *)

Lemma main_completes env FONT num_codes fuel w :
  makedirs_ok env w ->
  (num_codes <= size (list_to_set (samples env (rng_pos w) fuel) : gset string))%nat ->
  exists w',
    main env FONT num_codes (S fuel) w = Some (Ok tt, w') /\
    last (stdout w') = Some (summary_line num_codes).
Proof.
  intros Hok Hfair. unfold main.
  destruct (setup_ok env ("Generating " +:+ pretty num_codes
                          +:+ " QR codes in directory '" +:+ OUTPUT_DIR +:+ "'...")
                     w Hok) as [fs1 ->].
  set (w1 := MkWorld (rng_pos w) fs1 _ (errlog w) _).
  destruct (main_loop_terminates env FONT num_codes fuel ∅ w1) as (gs & w2 & Hrun).
  { rewrite (left_id_L ∅ (∪)). exact Hfair. }
  rewrite Hrun.
  destruct (main_loop_post _ _ _ w1 _ _ _ _ _ (loop_inv_init _ _ _ _) Hrun)
    as (gs' & Heq & Hsize & _).
  injection Heq as <-.
  eexists. split; [reflexivity|].
  unfold print; cbn [stdout]. rewrite Hsize. apply last_snoc.
Qed.

Lemma sanitised_not_slash c : sanitised c <> "/"%char.
Proof.
  unfold sanitised. destruct (isalnum c) eqn:Hc; [|discriminate].
  intros ->. vm_compute in Hc. discriminate.
Qed.

Lemma sanitised_idempotent c : sanitised (sanitised c) = sanitised c.
Proof.
  unfold sanitised. destruct (isalnum c) eqn:Hc; [rewrite Hc; reflexivity|].
  reflexivity.
Qed.

Lemma safe_filename_chars s : str_chars (safe_filename s) = map sanitised (str_chars s).
Proof.
  unfold safe_filename. induction s as [|c s IH]; [reflexivity|].
  cbn [str_map str_chars map]. rewrite IH. reflexivity.
Qed.

Lemma flawless_rendering env FONT d f :
  flawless env FONT -> exists img, rendering env FONT d f = Ok img /\ img_text img = d.
Proof.
  intros (Hqr & Hfont & Hsave & Halloc).
  destruct (Hqr d) as (qw & qh & Eqr & Hqw & Hqh).
  destruct (Hfont d) as (x0 & y0 & x1 & y1 & Ebb & Hx & Hy).
  assert (Hpow29 : (2 ^ 29 = 536870912)%Z) by reflexivity.
  assert (Hpow31 : (2 ^ 31 = 2147483648)%Z) by reflexivity.
  unfold rendering, measured, save_refusal, new_refusal.
  rewrite Eqr, Ebb, Hsave, !Halloc.
  unfold layout; cbn [img_width img_height].
  unfold PADDING, TEXT_PADDING_TOP. rewrite Hpow31. rewrite Hpow29 in *.
  replace ((1 <? 0) || (1 <? 0))%Z with false by reflexivity.
  replace ((2147483648 <=? 1) || (2147483648 <=? 1))%Z with false by reflexivity.
  replace ((_ <? 0) || (_ <? 0))%Z with false
    by (symmetry; apply orb_false_intro; apply Z.ltb_ge; lia).
  replace ((2147483648 <=? _) || (2147483648 <=? _))%Z with false
    by (symmetry; apply orb_false_intro; apply Z.leb_gt; lia).
  replace ((_ =? 0) || (_ =? 0))%Z with false
    by (symmetry; apply orb_false_intro; apply Z.eqb_neq; lia).
  eexists. split; reflexivity.
Qed.

(** X1.  [generate_random_string] never raises: for every length [n] it
    returns a string of exactly [n] characters, all from A-Z0-9, having
    made exactly [n] draws (none for [n = 0]) and touched nothing else. *)
Theorem generate_random_string_shape (env : Env) (n : nat) (w : World) :
  exists s w',
    generate_random_string env n w = (Ok s, w') /\
    String.length s = n /\
    (forall c, c ∈ str_chars s -> c ∈ str_chars characters) /\
    rng_pos w' = (rng_pos w + n)%nat /\
    trace w' = trace w ++ map EvChoice (str_chars s) /\
    fs w' = fs w /\ stdout w' = stdout w /\ errlog w' = errlog w.
Proof.
  rewrite generate_random_string_spec. eexists _, _. split; [reflexivity|].
  split; [apply sample_length|]. split; [apply sample_alphabet|].
  unfold drawn; cbn [rng_pos trace fs stdout errlog]. auto.
Qed.

(** X2.  The loop never stops short: started with at most [num_codes]
    strings in hand, whenever it returns, for any random source and any
    number of passes, it returns normally with exactly [num_codes]
    strings, the ones it started with among them. *)
Theorem loop_never_stops_short
    (env : Env) (FONT : Font) (num_codes fuel : nat) (gs : gset string)
    (w w' : World) (r : Res (gset string)) :
  (size gs <= num_codes)%nat ->
  main_loop env FONT num_codes fuel gs w = Some (r, w') ->
  exists gs', r = Ok gs' /\ size gs' = num_codes /\ gs ⊆ gs'.
Proof.
  intros Hsz Hrun.
  destruct (main_loop_invariant env FONT num_codes
              (fun g _ => (size g <= num_codes)%nat /\ gs ⊆ g)) with
      (fuel := fuel) (gs := gs) (w := w) (r := r) (w' := w')
    as (gs' & -> & [Hle Hsub] & Hge); [| split; [exact Hsz|set_solver] | exact Hrun |].
  - intros g v g' v' [Hg Hsub] Hlt Hbody.
    rewrite loop_body_spec in Hbody.
    destruct (decide _) as [Hin|Hnin]; injection Hbody as <- _.
    + split; assumption.
    + split; [|set_solver].
      rewrite size_union by set_solver. rewrite size_singleton. lia.
  - exists gs'. split; [reflexivity|]. split; [lia|exact Hsub].
Qed.

(** X4.  One call of [create_qr_with_title] always returns normally, makes
    no random draw, and leaves every path other than its [filename] as it
    was.  It ends in exactly one of two ways: it saves one image under
    [filename], logs nothing and prints the success line last; or it saves
    nothing, leaves the file system unchanged and logs one failure. *)
Theorem composer_touches_only_its_file
    (env : Env) (FONT : Font) (d f : string) (w : World) :
  exists w',
    create_qr_with_title env FONT d f w = (Ok tt, w') /\
    rng_pos w' = rng_pos w /\
    (forall p, p <> f -> fs w' !! p = fs w !! p) /\
    ((exists img,
        trace w' = trace w ++ [EvCompose d f; EvSave f img] /\
        fs w' !! f = Some (File img) /\
        errlog w' = errlog w /\
        last (stdout w') = Some ("Successfully created: " +:+ f))
     \/
     (exists e,
        trace w' = trace w ++ [EvCompose d f] /\
        fs w' = fs w /\
        errlog w' = errlog w ++ ["Failed to create QR code for '" +:+ d +:+ "': "
                                 +:+ exn_msg e] /\
        last (stdout w') = Some ("Error processing '" +:+ d +:+ "': " +:+ exn_msg e))).
Proof.
  destruct (create_qr_with_title_spec env FONT d f w) as [pre Hc].
  eexists. split; [exact Hc|].
  destruct (rendering env FONT d f) as [img|e]; cbn [rng_pos fs trace errlog stdout].
  - split; [reflexivity|]. split.
    + intros p Hp. apply lookup_insert_ne. congruence.
    + left. exists img. split; [reflexivity|]. split; [apply lookup_insert_eq|].
      split; [reflexivity|]. rewrite app_assoc. apply last_snoc.
  - split; [reflexivity|]. split; [reflexivity|].
    right. exists e. split; [reflexivity|]. split; [reflexivity|].
    split; [reflexivity|]. rewrite app_assoc. apply last_snoc.
Qed.

(** X5.  When [textbbox] raises for a string, [measure_text] falls back to
    [textsize] only for an [AttributeError], printing the notice about the
    older method first; any other exception passes through untouched and
    [textsize] is not consulted. *)
Theorem text_size_falls_back_on_attribute_error_only
    (FONT : Font) (d : string) (w : World) (e : exn) :
  font_textbbox FONT d = Raise e ->
  (is_AttributeError e = true ->
   measure_text FONT d w
   = (font_textsize FONT d,
      MkWorld (rng_pos w) (fs w)
              (stdout w ++ ["Using older textsize method (might be less accurate)"])
              (errlog w) (trace w))) /\
  (is_AttributeError e = false -> measure_text FONT d w = (Raise e, w)).
Proof.
  intros Hbb. unfold measure_text. unfold_monad. rewrite Hbb.
  split; intros ->; reflexivity.
Qed.


(** X7.  When the output directory cannot be set up (a plain file is in
    its place, or it is absent and cannot be created), [main] ends with
    the exception of [os.makedirs]: it has made that one call and nothing
    else, printed nothing, drawn nothing and left the file system as it
    was. *)
Theorem directory_failure_aborts_before_work
    (env : Env) (FONT : Font) (num_codes fuel : nat) (w : World) :
  ~ makedirs_ok env w ->
  exists e w',
    main env FONT num_codes fuel w = Some (Raise e, w') /\
    trace w' = trace w ++ [EvMakedirs OUTPUT_DIR] /\
    stdout w' = stdout w /\ errlog w' = errlog w /\
    fs w' = fs w /\ rng_pos w' = rng_pos w.
Proof.
  unfold makedirs_ok, main. intros Hno. rewrite setup_spec.
  destruct (fs w !! OUTPUT_DIR) as [[|img]|].
  - exfalso. apply Hno. exact I.
  - eexists _, _. split; [reflexivity|]. cbn. auto.
  - destruct (mkdir_error env OUTPUT_DIR) as [e|].
    + eexists _, _. split; [reflexivity|]. cbn. auto.
    + exfalso. apply Hno. reflexivity.
Qed.

(** X8.  For every string, alphanumeric or not, the path the loop hands to
    the composer is OUTPUT_DIR, a slash, the sanitised string and ".png";
    the sanitised string contains no slash, so the path names a file
    directly inside the output directory. *)
Theorem output_path_stays_in_directory (s : string) :
  output_path s = "qr_codes_with_titles/" +:+ safe_filename s +:+ ".png" /\
  "/"%char ∉ str_chars (safe_filename s).
Proof.
  split.
  - unfold output_path, os_path_join, startswith.
    replace (lower IMAGE_FORMAT) with "png" by reflexivity.
    assert (Hp : String.prefix "/" (safe_filename s +:+ "." +:+ "png") = false).
    { destruct s as [|c s]; [reflexivity|].
      change (safe_filename (String c s))
        with (String (sanitised c) (safe_filename s)).
      change (String.prefix "/" (String (sanitised c) (safe_filename s) +:+ "." +:+ "png"))
        with (if Ascii.ascii_dec "/" (sanitised c)
              then String.prefix "" (safe_filename s +:+ "." +:+ "png") else false).
      destruct (Ascii.ascii_dec "/" (sanitised c)) as [Heq|Hne]; [|reflexivity].
      exfalso. apply (sanitised_not_slash c). congruence. }
    rewrite Hp. reflexivity.
  - rewrite safe_filename_chars. intros Hin.
    apply list_elem_of_fmap in Hin as (c & Hc & _).
    apply (sanitised_not_slash c). congruence.
Qed.

(** X9.  The sanitising map keeps the length of the string, gives only
    alphanumeric characters and underscores, changes nothing when applied
    a second time, and is the identity exactly on the strings made of
    alphanumeric characters and underscores. *)
Theorem safe_filename_properties (s : string) :
  String.length (safe_filename s) = String.length s /\
  (forall c, c ∈ str_chars (safe_filename s) -> isalnum c = true \/ c = "_"%char) /\
  safe_filename (safe_filename s) = safe_filename s /\
  (safe_filename s = s <->
   forall c, c ∈ str_chars s -> isalnum c = true \/ c = "_"%char).
Proof.
  split; [|split; [|split]].
  - unfold safe_filename. induction s as [|c s IH]; simpl; [reflexivity|].
    f_equal. exact IH.
  - intros c Hc. rewrite safe_filename_chars in Hc.
    apply list_elem_of_fmap in Hc as (x & -> & _).
    unfold sanitised. destruct (isalnum x) eqn:Hx; auto.
  - unfold safe_filename. induction s as [|c s IH]; [reflexivity|].
    cbn [str_map]. rewrite IH. f_equal.
    apply (sanitised_idempotent c).
  - unfold safe_filename. induction s as [|c s IH].
    + split; [|reflexivity]. intros _ c Hc. inversion Hc.
    + cbn [str_map str_chars]. split.
      * intros Heq. injection Heq as Hc Hs. intros x Hx.
        apply elem_of_cons in Hx as [->|Hx]; [|apply IH; assumption].
        destruct (isalnum c) eqn:Hal; [left; reflexivity|right; congruence].
      * intros Hall. f_equal.
        -- destruct (Hall c) as [Hal| ->]; [left|rewrite Hal; reflexivity|reflexivity].
        -- apply IH. intros x Hx. apply Hall. right. exact Hx.
Qed.

(** X10.  A pass of the loop whose sample is already in the set does
    nothing but draw: it returns the set unchanged, without [break], in
    the very world the draws left, so no composer call, no output and no
    file.  A pass whose sample is new adds it and calls the composer once,
    on that sample and its output path. *)
Theorem loop_pass_by_sample
    (env : Env) (FONT : Font) (num_codes : nat) (gs : gset string)
    (w w1 : World) (s : string) :
  generate_random_string env STRING_LENGTH w = (Ok s, w1) ->
  (s ∈ gs -> loop_body env FONT num_codes gs w = (Ok (gs, false), w1)) /\
  (s ∉ gs ->
   loop_body env FONT num_codes gs w
   = (Ok ({[s]} ∪ gs, false),
      (create_qr_with_title env FONT s (output_path s) w1).2)).
Proof.
  intros Hgen. rewrite generate_random_string_spec in Hgen.
  injection Hgen as <- <-. rewrite loop_body_spec.
  split; intros Hs; destruct (decide _); try contradiction; reflexivity.
Qed.

(** X11.  A run of the loop writes only the files of its own codes: every
    path that is not OUTPUT_DIR/<code>.png for a code of the returned set
    holds after the run what it held before. *)
Theorem run_writes_only_code_files
    (env : Env) (FONT : Font) (num_codes fuel : nat) (w w' : World)
    (gs : gset string) :
  main_loop env FONT num_codes fuel ∅ w = Some (Ok gs, w') ->
  forall p,
    (forall d, d ∈ gs -> p <> "qr_codes_with_titles/" +:+ d +:+ ".png") ->
    fs w' !! p = fs w !! p.
Proof.
  intros Hrun.
  destruct (main_loop_invariant env FONT num_codes
              (fun g v => (forall s, s ∈ g -> valid_code s) /\
                          forall p, (forall d, d ∈ g -> p <> output_path d) ->
                                    fs v !! p = fs w !! p)) with
      (fuel := fuel) (gs := (∅ : gset string)) (w := w) (r := Ok gs) (w' := w')
    as (gs' & Heq & [Hvalid Hframe] & _); [| split; [set_solver|reflexivity] | exact Hrun |].
  - intros g v g' v' [Hval Hfr] _ Hbody.
    rewrite loop_body_spec in Hbody.
    set (s := sample env (rng_pos v) STRING_LENGTH) in *.
    destruct (decide (s ∈ g)) as [Hin|Hnin]; injection Hbody as <- <-.
    + split; [exact Hval|]. intros p Hp. unfold drawn; cbn [fs]. apply Hfr, Hp.
    + split.
      { intros x Hx. apply elem_of_union in Hx as [Hx|Hx]; [|auto].
        apply elem_of_singleton in Hx as ->. apply sample_valid. }
      intros p Hp.
      destruct (composer_world_spec env FONT s (output_path s) (drawn env STRING_LENGTH v))
        as [pre ->].
      assert (Hold : fs v !! p = fs w !! p) by (apply Hfr; intros d Hd; apply Hp; set_solver).
      destruct (rendering env FONT s (output_path s)); unfold drawn; cbn [fs].
      * rewrite lookup_insert_ne; [exact Hold|].
        intros Heq. apply (Hp s); [apply elem_of_union_l, elem_of_singleton; reflexivity|symmetry; exact Heq].
      * exact Hold.
  - injection Heq as <-. intros p Hp. apply Hframe.
    intros d Hd. rewrite (output_path_alphabet d); [apply Hp, Hd|].
    apply (Hvalid d Hd).
Qed.

(** X12.  When nothing goes wrong for any item, a run that returns has
    logged no failure, has saved exactly [num_codes] images, and for every
    code of the returned set the file OUTPUT_DIR/<code>.png holds an image
    carrying that code as its text. *)
Theorem flawless_run_writes_every_code
    (env : Env) (FONT : Font) (num_codes fuel : nat) (w w' : World)
    (gs : gset string) :
  flawless env FONT ->
  main_loop env FONT num_codes fuel ∅ w = Some (Ok gs, w') ->
  errlog w' = errlog w /\
  (exists tr, trace w' = trace w ++ tr /\ length (saved tr) = num_codes) /\
  (forall d, d ∈ gs ->
     exists img, fs w' !! ("qr_codes_with_titles/" +:+ d +:+ ".png") = Some (File img) /\
                 img_text img = d).
Proof.
  intros Hfl Hrun.
  destruct (main_loop_invariant env FONT num_codes
              (fun g v => errlog v = errlog w /\
                          (forall s, s ∈ g -> valid_code s) /\
                          forall d, d ∈ g ->
                            exists img, fs v !! output_path d = Some (File img) /\
                                        img_text img = d)) with
      (fuel := fuel) (gs := (∅ : gset string)) (w := w) (r := Ok gs) (w' := w')
    as (gs' & Heq & (Hlog & Hvalid & Hfiles) & _);
    [| split; [reflexivity|split; set_solver] | exact Hrun |].
  - intros g v g' v' (Hl & Hval & Hf) _ Hbody.
    rewrite loop_body_spec in Hbody.
    set (s := sample env (rng_pos v) STRING_LENGTH) in *.
    destruct (decide (s ∈ g)) as [Hin|Hnin]; injection Hbody as <- <-.
    + unfold drawn; cbn [errlog fs]. auto.
    + destruct (composer_world_spec env FONT s (output_path s) (drawn env STRING_LENGTH v))
        as [pre ->].
      destruct (flawless_rendering env FONT s (output_path s) Hfl) as (img & -> & Himg).
      unfold drawn; cbn [errlog fs].
      split; [exact Hl|]. split.
      { intros x Hx. apply elem_of_union in Hx as [Hx|Hx]; [|auto].
        apply elem_of_singleton in Hx as ->. apply sample_valid. }
      intros d Hd. apply elem_of_union in Hd as [Hd|Hd].
      * apply elem_of_singleton in Hd as ->. exists img.
        split; [apply lookup_insert_eq|exact Himg].
      * destruct (Hf d Hd) as (img' & Hlook & Htext). exists img'.
        split; [|exact Htext]. rewrite lookup_insert_ne; [exact Hlook|].
        intros Heq. apply output_path_inj in Heq; [congruence|apply sample_valid|auto].
  - injection Heq as <-.
    destruct (main_loop_post _ _ _ w _ _ _ _ _ (loop_inv_init _ _ _ _) Hrun)
      as (gs2 & Heq2 & Hsize & _ & _ & tr & log & Htr & Hlog2 & Hnd & Hset & _ & _ & _
          & Hcnt & _).
    injection Heq2 as <-.
    assert (Hnil : log = []).
    { rewrite Hlog in Hlog2. rewrite <- (app_nil_r (errlog w)) in Hlog2 at 1.
      apply app_inv_head in Hlog2. congruence. }
    split; [exact Hlog|]. split.
    + exists tr. split; [exact Htr|]. subst log. cbn [length] in Hcnt.
      rewrite Nat.add_0_r in Hcnt. rewrite Hcnt, <- Hsize, <- Hset.
      rewrite size_list_to_set by exact Hnd. symmetry. apply length_fmap.
    + intros d Hd. destruct (Hfiles d Hd) as (img & Hlook & Htext).
      exists img. split; [|exact Htext].
      rewrite <- (output_path_alphabet d); [exact Hlook|apply (Hvalid d Hd)].
Qed.

(** X13.  Every pass of the loop makes exactly STRING_LENGTH draws,
    whether or not its sample is kept: a run that returns has made
    STRING_LENGTH * k draws for some number k of passes, at least
    [num_codes] of them. *)
Theorem run_draws_five_per_pass
    (env : Env) (FONT : Font) (num_codes fuel : nat) (w w' : World)
    (gs : gset string) :
  main_loop env FONT num_codes fuel ∅ w = Some (Ok gs, w') ->
  exists k, rng_pos w' = (rng_pos w + STRING_LENGTH * k)%nat /\ (num_codes <= k)%nat.
Proof.
  intros Hrun.
  destruct (main_loop_invariant env FONT num_codes
              (fun g v => exists k, rng_pos v = (rng_pos w + STRING_LENGTH * k)%nat /\
                                    (size g <= k)%nat)) with
      (fuel := fuel) (gs := (∅ : gset string)) (w := w) (r := Ok gs) (w' := w')
    as (gs' & Heq & (k & Hpos & Hk) & Hge); [| | exact Hrun |].
  - intros g v g' v' (k & Hpos & Hk) _ Hbody.
    rewrite loop_body_spec in Hbody.
    destruct (decide _) as [Hin|Hnin]; injection Hbody as <- <-; exists (S k).
    + unfold drawn; cbn [rng_pos]. split; [lia|lia].
    + rewrite composer_world_rng_pos. unfold drawn; cbn [rng_pos]. split; [lia|].
      rewrite size_union by set_solver. rewrite size_singleton. lia.
  - exists 0%nat. rewrite size_empty. split; lia.
  - exists k. split; [exact Hpos|lia].
Qed.

(** X14.  When the preferred font file is missing (an IOError) and the
    built-in font loads, the script carries on with the built-in font: it
    prints the warning, then runs [main] with that font, and, the output
    directory being usable and the random source offering enough
    strings, ends with status 0 and the summary of [num_codes] codes as
    its last line. *)
Theorem missing_font_falls_back_to_default
    (env : Env) (FONT : Font) (e : exn) (num_codes fuel : nat) (w : World) :
  truetype env "arial.ttf" FONT_SIZE = Raise e ->
  is_IOError e = true ->
  load_default env = Ok FONT ->
  makedirs_ok env w ->
  (num_codes <= size (list_to_set (samples env (rng_pos w) fuel) : gset string))%nat ->
  exists w',
    script env num_codes (S fuel) w = Some (0%Z, w') /\
    main env FONT num_codes (S fuel)
         (print "Warning: Default font 'arial.ttf' not found. Using Pillow's default font." w).2
    = Some (Ok tt, w') /\
    last (stdout w') = Some (summary_line num_codes).
Proof.
  intros Htt Hio Hld Hok Hfair. unfold script. rewrite load_font_spec, Htt, Hio, Hld.
  set (w1 := MkWorld (rng_pos w) (fs w) _ (errlog w) (trace w)).
  destruct (main_completes env FONT num_codes fuel w1 Hok Hfair) as (w' & Hmain & Hlast).
  exists w'. rewrite Hmain. split; [reflexivity|]. split; [exact Hmain|exact Hlast].
Qed.

(** * Runs on concrete inputs *)

(** The configured run: 24 codes from a source that steps through the
    alphabet. *)
Lemma demo_run_yields_24_codes :
  (NUM_CODES <= size (list_to_set (samples demo_env 0 24) : gset string))%nat /\
  exists (gs : gset string) (w' : World) (codes : list string),
    (NUM_CODES <= 36 ^ 5)%nat /\
    main_loop demo_env arial NUM_CODES 25 ∅ (boot ∅) = Some (Ok gs, w') /\
    size gs = NUM_CODES /\
    (forall s, s ∈ gs ->
       String.length s = 5%nat /\
       forall c, c ∈ str_chars s -> c ∈ str_chars "ABCDEFGHIJKLMNOPQRSTUVWXYZ0123456789") /\
    (composed (trace w')).*1 = (composed (trace (boot ∅))).*1 ++ codes /\
    NoDup codes /\
    length codes = NUM_CODES /\
    (forall s, s ∈ codes <-> s ∈ gs).
Proof.
  assert (H : (NUM_CODES <= size (list_to_set (samples demo_env 0 24) : gset string))%nat).
  { apply Nat.leb_le. by_evaluation. }
  split; [exact H|].
  exact (run_produces_distinct_wellformed_codes demo_env arial NUM_CODES 24 (boot ∅) H).
Defined.

(** C3, against the claim as written: with every save refused, the run for
    24 codes ends with status 0, every item failed and no image was
    written, yet the summary line says 24; it does not report the number
    of images written, and the number it reports is not below 24. *)
Lemma summary_counts_codes_not_written_images :
  exists w',
    script unwritable_env NUM_CODES 25 (boot ∅) = Some (0%Z, w') /\
    length (errlog w') = 24%nat /\
    saved (trace w') = [] /\
    last (stdout w') = Some (newline +:+ "Finished generating 24 QR codes.") /\
    ~ (exists k, last (stdout w') = Some (summary_line k) /\
                 k = length (saved (trace w')) /\ (k < NUM_CODES)%nat).
Proof.
  exists (final_world (script unwritable_env NUM_CODES 25 (boot ∅)) (boot ∅)).
  split; [by_evaluation|]. split; [by_evaluation|]. split; [by_evaluation|].
  split; [by_evaluation|].
  intros (k & Hline & Hk & _).
  vm_compute in Hk. subst k. vm_compute in Hline. discriminate.
Qed.

(** The same run with every save refused. *)
Lemma unwritable_run_summary :
  makedirs_ok unwritable_env (boot ∅) /\
  (NUM_CODES <= size (list_to_set (samples unwritable_env 0 24) : gset string))%nat /\
  exists (w' : World) (tr : list Event) (log : list string),
    main unwritable_env arial NUM_CODES 25 (boot ∅) = Some (Ok tt, w') /\
    last (stdout w') = Some (summary_line NUM_CODES) /\
    trace w' = trace (boot ∅) ++ tr /\
    errlog w' = errlog (boot ∅) ++ log /\
    length (composed tr) = NUM_CODES /\
    (length (saved tr) + length log = NUM_CODES)%nat /\
    (log <> [] -> (length (saved tr) < NUM_CODES)%nat).
Proof.
  assert (H1 : makedirs_ok unwritable_env (boot ∅)) by by_evaluation.
  assert (H2 : (NUM_CODES
                <= size (list_to_set (samples unwritable_env 0 24) : gset string))%nat).
  { apply Nat.leb_le. by_evaluation. }
  split; [exact H1|]. split; [exact H2|].
  exact (summary_reports_generated_codes unwritable_env arial NUM_CODES 24 (boot ∅) H1 H2).
Defined.

(** C4, against the claim as written: with no font to load the script ends
    with status 0, so a missing font does not give a non-zero status; and
    with the fonts in place but a plain file where the output directory
    should be, the status is 1. *)
Lemma no_font_exit_status_is_zero :
  fonts_unavailable no_font_env /\
  (exists w', script no_font_env NUM_CODES 25 (boot ∅) = Some (0%Z, w')) /\
  ~ (forall st w',
       script no_font_env NUM_CODES 25 (boot ∅) = Some (st, w') ->
       (st <> 0%Z <-> fonts_unavailable no_font_env)) /\
  ~ fonts_unavailable demo_env /\
  (exists w', script demo_env NUM_CODES 25
                (boot {[OUTPUT_DIR := File (layout "" 0 0 0 0)]}) = Some (1%Z, w')).
Proof.
  assert (Hno : fonts_unavailable no_font_env).
  { eexists _, _. repeat split; reflexivity. }
  split; [exact Hno|]. split; [eexists; by_evaluation|]. split; [|split].
  - intros H.
    destruct (H 0%Z (final_world (script no_font_env NUM_CODES 25 (boot ∅)) (boot ∅)))
      as [_ Hback]; [by_evaluation|].
    apply (Hback Hno). reflexivity.
  - intros (e & e' & He & _). discriminate.
  - eexists. by_evaluation.
Qed.

(** The run with no font to load. *)
Lemma no_font_run_stops_early :
  fonts_unavailable no_font_env /\
  exists w', script no_font_env NUM_CODES 25 (boot ∅) = Some (0%Z, w') /\
             trace w' = trace (boot ∅) /\ fs w' = fs (boot ∅) /\
             rng_pos w' = rng_pos (boot ∅).
Proof.
  assert (Hno : fonts_unavailable no_font_env).
  { eexists _, _. repeat split; reflexivity. }
  split; [exact Hno|].
  exact (proj1 (font_failure_stops_before_work no_font_env NUM_CODES 25 (boot ∅)) Hno).
Defined.



(** ABCDE composed twice in a row under the same name. *)
Lemma demo_recomposition :
  let f := "qr_codes_with_titles/ABCDE.png" in
  let w1 := (create_qr_with_title demo_env arial "ABCDE" f (boot ∅)).2 in
  let w2 := (create_qr_with_title demo_env arial "ABCDE" f w1).2 in
  let img := layout "ABCDE" 290 290 80 20 in
  create_qr_with_title demo_env arial "ABCDE" f (boot ∅) = (Ok tt, w1) /\
  trace w1 = trace (boot ∅) ++ [EvCompose "ABCDE" f; EvSave f img] /\
  create_qr_with_title demo_env arial "ABCDE" f w1 = (Ok tt, w2) /\
  trace w2 = trace w1 ++ [EvCompose "ABCDE" f; EvSave f img] /\
  img_width img = img_width img /\ img_height img = img_height img.
Proof.
  intros f w1 w2 img.
  assert (H1 : create_qr_with_title demo_env arial "ABCDE" f (boot ∅) = (Ok tt, w1))
    by by_evaluation.
  assert (H2 : trace w1 = trace (boot ∅) ++ [EvCompose "ABCDE" f; EvSave f img])
    by by_evaluation.
  assert (H3 : create_qr_with_title demo_env arial "ABCDE" f w1 = (Ok tt, w2))
    by by_evaluation.
  assert (H4 : trace w2 = trace w1 ++ [EvCompose "ABCDE" f; EvSave f img])
    by by_evaluation.
  split; [exact H1|]. split; [exact H2|]. split; [exact H3|]. split; [exact H4|].
  exact (recomposition_keeps_dimensions demo_env arial "ABCDE" f f (boot ∅) w1 w1 w2
           img img H1 H2 H3 H4).
Defined.

(** ABCDE composed when the save is refused. *)
Lemma refused_save_is_contained :
  let f := "qr_codes_with_titles/ABCDE.png" in
  let e := MkExn IOError "Permission denied" in
  let w0 := (emit (EvCompose "ABCDE" f) (boot ∅)).2 in
  compose_and_save unwritable_env arial "ABCDE" f w0
  = (Raise e, (compose_and_save unwritable_env arial "ABCDE" f w0).2) /\
  exists w',
    create_qr_with_title unwritable_env arial "ABCDE" f (boot ∅) = (Ok tt, w') /\
    errlog w' = errlog (boot ∅)
                ++ ["Failed to create QR code for '" +:+ "ABCDE" +:+ "': " +:+ exn_msg e] /\
    last (stdout w') = Some ("Error processing '" +:+ "ABCDE" +:+ "': " +:+ exn_msg e) /\
    fs w' = fs (boot ∅) /\
    saved (trace w') = saved (trace (boot ∅)).
Proof.
  intros f e w0.
  assert (H : compose_and_save unwritable_env arial "ABCDE" f w0
              = (Raise e, (compose_and_save unwritable_env arial "ABCDE" f w0).2))
    by by_evaluation.
  split; [exact H|].
  exact (proj1 (per_item_failure_is_contained unwritable_env arial "ABCDE" f (boot ∅)
                  _ e H)).
Defined.


(** A run of three codes with the output directory absent at the start,
    and one with the directory already there. *)
Lemma demo_directory_setup :
  let w := boot ∅ in
  let w' := final_world (main demo_env arial 3 4 w) w in
  let v := boot {[OUTPUT_DIR := Dir]} in
  let v' := final_world (main demo_env arial 3 4 v) v in
  (main demo_env arial 3 4 w = Some (Ok tt, w') /\
   (exists rest,
      trace w' = trace w ++ EvMakedirs OUTPUT_DIR :: rest /\ made_dirs rest = []) /\
   (fs w !! OUTPUT_DIR = Some Dir ->
    exists w1, os_makedirs demo_env OUTPUT_DIR w = (Ok tt, w1) /\ fs w1 = fs w) /\
   (fs w !! OUTPUT_DIR = None ->
    forall w1, os_makedirs demo_env OUTPUT_DIR w = (Ok tt, w1) ->
               fs w1 = <[OUTPUT_DIR := Dir]> (fs w)) /\
   (Ok tt = Ok tt -> fs w' !! OUTPUT_DIR = Some Dir)) /\
  (main demo_env arial 3 4 v = Some (Ok tt, v') /\
   (exists rest,
      trace v' = trace v ++ EvMakedirs OUTPUT_DIR :: rest /\ made_dirs rest = []) /\
   (fs v !! OUTPUT_DIR = Some Dir ->
    exists v1, os_makedirs demo_env OUTPUT_DIR v = (Ok tt, v1) /\ fs v1 = fs v) /\
   (fs v !! OUTPUT_DIR = None ->
    forall v1, os_makedirs demo_env OUTPUT_DIR v = (Ok tt, v1) ->
               fs v1 = <[OUTPUT_DIR := Dir]> (fs v)) /\
   (Ok tt = Ok tt -> fs v' !! OUTPUT_DIR = Some Dir)).
Proof.
  intros w w' v v'.
  assert (Hw : main demo_env arial 3 4 w = Some (Ok tt, w')).
  { by_evaluation. }
  assert (Hv : main demo_env arial 3 4 v = Some (Ok tt, v')).
  { by_evaluation. }
  split.
  - split; [exact Hw|].
    exact (output_dir_created_once_up_front demo_env arial 3 4 w w' (Ok tt) Hw).
  - split; [exact Hv|].
    exact (output_dir_created_once_up_front demo_env arial 3 4 v v' (Ok tt) Hv).
Defined.

(** A run of three codes given room for ten passes. *)
Lemma three_codes_exactly :
  let gs : gset string := {["ABCDE"; "FGHIJ"; "KLMNO"]} in
  let w' := final_world (main_loop demo_env arial 3 10 ∅ (boot ∅)) (boot ∅) in
  (size (∅ : gset string) <= 3)%nat /\
  main_loop demo_env arial 3 10 ∅ (boot ∅) = Some (Ok gs, w') /\
  exists gs', Ok gs = Ok gs' /\ size gs' = 3%nat /\ (∅ : gset string) ⊆ gs'.
Proof.
  intros gs w'.
  assert (H1 : (size (∅ : gset string) <= 3)%nat) by (apply Nat.leb_le; by_evaluation).
  assert (H2 : main_loop demo_env arial 3 10 ∅ (boot ∅) = Some (Ok gs, w'))
    by by_evaluation.
  split; [exact H1|]. split; [exact H2|].
  exact (loop_never_stops_short demo_env arial 3 10 ∅ (boot ∅) w' (Ok gs) H1 H2).
Defined.

(** One code more than the code space holds. *)
Lemma one_code_too_many :
  (36 ^ 5 < S (36 ^ 5))%nat /\
  main_loop demo_env arial (S (36 ^ 5)) 10 ∅ (boot ∅) = None.
Proof.
  assert (H : (36 ^ 5 < S (36 ^ 5))%nat) by apply Nat.lt_succ_diag_r.
  split; [exact H|].
  exact (oversized_request_never_stops demo_env arial (S (36 ^ 5)) 10 (boot ∅) H).
Defined.

(** Measuring ABCDE with a font of an older Pillow. *)
Lemma legacy_font_measures_by_textsize :
  let e := MkExn AttributeError "'ImageDraw' object has no attribute 'textbbox'" in
  font_textbbox legacy_font "ABCDE" = Raise e /\
  (is_AttributeError e = true ->
   measure_text legacy_font "ABCDE" (boot ∅)
   = (font_textsize legacy_font "ABCDE",
      MkWorld (rng_pos (boot ∅)) (fs (boot ∅))
              (stdout (boot ∅) ++ ["Using older textsize method (might be less accurate)"])
              (errlog (boot ∅)) (trace (boot ∅)))) /\
  (is_AttributeError e = false -> measure_text legacy_font "ABCDE" (boot ∅) = (Raise e, boot ∅)).
Proof.
  intros e.
  assert (H : font_textbbox legacy_font "ABCDE" = Raise e) by reflexivity.
  split; [exact H|].
  exact (text_size_falls_back_on_attribute_error_only legacy_font "ABCDE" (boot ∅) e H).
Defined.


(** A plain file sits where the output directory should be. *)
Lemma blocked_directory_aborts :
  let w := boot {[OUTPUT_DIR := File (layout "" 0 0 0 0)]} in
  ~ makedirs_ok demo_env w /\
  exists e w',
    main demo_env arial 3 4 w = Some (Raise e, w') /\
    trace w' = trace w ++ [EvMakedirs OUTPUT_DIR] /\
    stdout w' = stdout w /\ errlog w' = errlog w /\
    fs w' = fs w /\ rng_pos w' = rng_pos w.
Proof.
  intros w.
  assert (H : ~ makedirs_ok demo_env w).
  { intros Hok. vm_compute in Hok. exact Hok. }
  split; [exact H|].
  exact (directory_failure_aborts_before_work demo_env arial 3 4 w H).
Defined.

(** AAAAA sampled again when it is already in the set. *)
Lemma repeated_sample_only_draws :
  let env := with_rnd (fun _ => 0%nat) demo_env in
  let gs : gset string := {["AAAAA"]} in
  let w1 := (generate_random_string env STRING_LENGTH (boot ∅)).2 in
  generate_random_string env STRING_LENGTH (boot ∅) = (Ok "AAAAA", w1) /\
  "AAAAA" ∈ gs /\
  loop_body env arial NUM_CODES gs (boot ∅) = (Ok (gs, false), w1).
Proof.
  intros env gs w1.
  assert (H1 : generate_random_string env STRING_LENGTH (boot ∅) = (Ok "AAAAA", w1))
    by by_evaluation.
  assert (H2 : "AAAAA" ∈ gs) by (apply elem_of_singleton; reflexivity).
  split; [exact H1|]. split; [exact H2|].
  exact (proj1 (loop_pass_by_sample env arial NUM_CODES gs (boot ∅) w1 "AAAAA" H1) H2).
Defined.

(** A run of three codes leaves every other path alone. *)
Lemma demo_run_frame :
  let gs : gset string := {["ABCDE"; "FGHIJ"; "KLMNO"]} in
  let w' := final_world (main_loop demo_env arial 3 4 ∅ (boot ∅)) (boot ∅) in
  main_loop demo_env arial 3 4 ∅ (boot ∅) = Some (Ok gs, w') /\
  forall p,
    (forall d, d ∈ gs -> p <> "qr_codes_with_titles/" +:+ d +:+ ".png") ->
    fs w' !! p = fs (boot ∅) !! p.
Proof.
  intros gs w'.
  assert (H : main_loop demo_env arial 3 4 ∅ (boot ∅) = Some (Ok gs, w'))
    by by_evaluation.
  split; [exact H|].
  exact (run_writes_only_code_files demo_env arial 3 4 (boot ∅) w' gs H).
Defined.

(** A run of three codes in which nothing fails. *)
Lemma demo_run_is_flawless :
  let gs : gset string := {["ABCDE"; "FGHIJ"; "KLMNO"]} in
  let w' := final_world (main_loop demo_env arial 3 4 ∅ (boot ∅)) (boot ∅) in
  flawless demo_env arial /\
  main_loop demo_env arial 3 4 ∅ (boot ∅) = Some (Ok gs, w') /\
  errlog w' = errlog (boot ∅) /\
  (exists tr, trace w' = trace (boot ∅) ++ tr /\ length (saved tr) = 3%nat) /\
  (forall d, d ∈ gs ->
     exists img, fs w' !! ("qr_codes_with_titles/" +:+ d +:+ ".png") = Some (File img) /\
                 img_text img = d).
Proof.
  intros gs w'.
  assert (H1 : flawless demo_env arial).
  { split; [|split; [|split]].
    - intros d. exists 290%Z, 290%Z. split; [reflexivity|]. split; lia.
    - intros d. exists 0%Z, 5%Z, 80%Z, 25%Z. split; [reflexivity|]. split; lia.
    - intros f. reflexivity.
    - intros w0 h0. reflexivity. }
  assert (H2 : main_loop demo_env arial 3 4 ∅ (boot ∅) = Some (Ok gs, w'))
    by by_evaluation.
  split; [exact H1|]. split; [exact H2|].
  exact (flawless_run_writes_every_code demo_env arial 3 4 (boot ∅) w' gs H1 H2).
Defined.

(** The draws of a run of three codes. *)
Lemma demo_run_draws :
  let gs : gset string := {["ABCDE"; "FGHIJ"; "KLMNO"]} in
  let w' := final_world (main_loop demo_env arial 3 4 ∅ (boot ∅)) (boot ∅) in
  main_loop demo_env arial 3 4 ∅ (boot ∅) = Some (Ok gs, w') /\
  exists k, rng_pos w' = (rng_pos (boot ∅) + STRING_LENGTH * k)%nat /\ (3 <= k)%nat.
Proof.
  intros gs w'.
  assert (H : main_loop demo_env arial 3 4 ∅ (boot ∅) = Some (Ok gs, w'))
    by by_evaluation.
  split; [exact H|].
  exact (run_draws_five_per_pass demo_env arial 3 4 (boot ∅) w' gs H).
Defined.

(** The script with the preferred font file missing. *)
Lemma fallback_font_run :
  let e := MkExn IOError "cannot open resource" in
  truetype fallback_env "arial.ttf" FONT_SIZE = Raise e /\
  is_IOError e = true /\
  load_default fallback_env = Ok legacy_font /\
  makedirs_ok fallback_env (boot ∅) /\
  (3 <= size (list_to_set (samples fallback_env 0 3) : gset string))%nat /\
  exists w',
    script fallback_env 3 4 (boot ∅) = Some (0%Z, w') /\
    main fallback_env legacy_font 3 4
         (print "Warning: Default font 'arial.ttf' not found. Using Pillow's default font."
                (boot ∅)).2
    = Some (Ok tt, w') /\
    last (stdout w') = Some (summary_line 3).
Proof.
  intros e.
  assert (H1 : truetype fallback_env "arial.ttf" FONT_SIZE = Raise e) by reflexivity.
  assert (H2 : is_IOError e = true) by reflexivity.
  assert (H3 : load_default fallback_env = Ok legacy_font) by reflexivity.
  assert (H4 : makedirs_ok fallback_env (boot ∅)) by by_evaluation.
  assert (H5 : (3 <= size (list_to_set (samples fallback_env 0 3) : gset string))%nat)
    by (apply Nat.leb_le; by_evaluation).
  split; [exact H1|]. split; [exact H2|]. split; [exact H3|]. split; [exact H4|].
  split; [exact H5|].
  exact (missing_font_falls_back_to_default fallback_env legacy_font e 3 3 (boot ∅)
           H1 H2 H3 H4 H5).
Defined.
